(** * Ink Realm: Lone Army -- enemy AI core

    A shallow embedding of the TypeScript AI layer:
    [AICharacter.ts] (agent state machine and combat attributes),
    [Perception.ts] (vision cone, hearing, damage memory),
    [CoverSystem.ts] (cover scoring and selection) and
    [AIManager.ts] (priority scheduler, LOD update, group alert).

    JavaScript numbers are read as real numbers ([R]); the one place where
    the source produces [NaN] (a read of a property that the object does not
    carry) is modelled with an explicit [JSNumber] type.  [THREE.Vector3]
    methods follow three.js.  Scratch vectors ([tempVector] and friends) are
    local values here, they carry no state between calls.  The wall clock
    [performance.now()] and [Math.random()] are streams indexed by the number
    of reads made so far.  A call that can raise a JavaScript exception
    returns an [option], or a [Completion] that carries the state at the
    moment the exception left the call. *)

From Stdlib Require Import Reals Lra Lia List String Bool Arith PeanoNat.
From Stdlib Require Import Permutation Sorted DecimalString.
Import ListNotations.

Open Scope R_scope.

(** ** JavaScript numbers and comparisons *)

Module JS.

Definition ltb (a b : R) : bool := if Rlt_dec a b then true else false.
Definition leb (a b : R) : bool := if Rle_dec a b then true else false.
Definition gtb (a b : R) : bool := ltb b a.
Definition geb (a b : R) : bool := leb b a.
Definition eqb (a b : R) : bool := if Req_dec_T a b then true else false.

(** A number that may be [NaN]: needed for arithmetic on [undefined]. *)
Inductive JSNumber : Type :=
| NaN : JSNumber
| Num : R -> JSNumber.

(** [ToNumber] of a property read: a missing property reads [undefined],
    and [ToNumber undefined] is [NaN]. *)
Definition ToNumber (v : option R) : JSNumber :=
  match v with
  | Some r => Num r
  | None => NaN
  end.

(** [a - b]: [NaN] as soon as one operand is. *)
Definition sub (a b : JSNumber) : JSNumber :=
  match a, b with
  | Num x, Num y => Num (x - y)
  | _, _ => NaN
  end.

(** [a < b]: every comparison with [NaN] is false. *)
Definition lt (a b : JSNumber) : bool :=
  match a, b with
  | Num x, Num y => ltb x y
  | _, _ => false
  end.

(** [Math.atan2(y, x)]. *)
Definition atan2 (y x : R) : R :=
  if Rlt_dec 0 x then atan (y / x)
  else if Rlt_dec x 0 then
    (if Rle_dec 0 y then atan (y / x) + PI else atan (y / x) - PI)
  else if Rlt_dec 0 y then PI / 2
  else if Rlt_dec y 0 then - (PI / 2)
  else 0.

End JS.

(** ** three.js vectors *)

Module THREE.

Record Vector3 : Type := mkVector3 { x : R; y : R; z : R }.

(** [THREE.Euler] with the default order XYZ. *)
Record Euler : Type := mkEuler { ex : R; ey : R; ez : R }.

Definition zero : Vector3 := mkVector3 0 0 0.

Definition subVectors (a b : Vector3) : Vector3 :=
  mkVector3 (x a - x b) (y a - y b) (z a - z b).

Definition add (a b : Vector3) : Vector3 :=
  mkVector3 (x a + x b) (y a + y b) (z a + z b).

Definition multiplyScalar (v : Vector3) (s : R) : Vector3 :=
  mkVector3 (x v * s) (y v * s) (z v * s).

Definition addScaledVector (a v : Vector3) (s : R) : Vector3 :=
  mkVector3 (x a + x v * s) (y a + y v * s) (z a + z v * s).

Definition dot (a b : Vector3) : R := x a * x b + y a * y b + z a * z b.

Definition lengthSq (v : Vector3) : R := x v * x v + y v * y v + z v * z v.

Definition length (v : Vector3) : R := sqrt (lengthSq v).

(** [divideScalar(this.length() || 1)]. *)
Definition normalize (v : Vector3) : Vector3 :=
  let l := length v in
  multiplyScalar v (1 / (if JS.eqb l 0 then 1 else l)).

Definition distanceTo (a b : Vector3) : R := length (subVectors a b).

Definition clamp (v lo hi : R) : R := Rmax lo (Rmin hi v).

(** [angleTo]: [PI / 2] when one of the vectors has length zero. *)
Definition angleTo (a b : Vector3) : R :=
  let denominator := sqrt (lengthSq a * lengthSq b) in
  if JS.eqb denominator 0 then PI / 2
  else acos (clamp (dot a b / denominator) (-1) 1).

(** [MathUtils.lerp]. *)
Definition lerp (a b t : R) : R := (1 - t) * a + t * b.

(** [new Vector3(0, 0, 1).applyEuler(e)]: the third column of the rotation
    matrix of [e] in order XYZ. *)
Definition forwardOfEuler (e : Euler) : Vector3 :=
  mkVector3 (sin (ey e)) (- (sin (ex e) * cos (ey e))) (cos (ex e) * cos (ey e)).

End THREE.

Import THREE.

(** ** Agent states *)

(** Modelled from the spec: [core/constants.ts], which declares the [AIState]
    enum, is not among the sources; the data model lists its members as
    IDLE, PATROL, ALERT, CHASE, COMBAT, COVER, RETREAT and DEAD. *)
Inductive AIState : Type :=
| IDLE | PATROL | ALERT | CHASE | COMBAT | COVER | RETREAT | DEAD.

Definition AIState_eqb (a b : AIState) : bool :=
  match a, b with
  | IDLE, IDLE | PATROL, PATROL | ALERT, ALERT | CHASE, CHASE
  | COMBAT, COMBAT | COVER, COVER | RETREAT, RETREAT | DEAD, DEAD => true
  | _, _ => false
  end.

(** ** Perception data ([Perception.ts]) *)

Record PerceptionResult : Type := mkPerceptionResult {
  hasLineOfSight : bool;
  visiblePosition : option Vector3;
  distanceToTarget : R;
  angleToTarget : R;
  canHear : bool;
  hearingSensitivity : R;
  isTakingDamage : bool;
  lastDamagePosition : option Vector3;
  lastDamageTime : R;
  timeSinceLastSeen : R;
  timeSinceLastHeard : R
}.

Record PerceptionConfig : Type := mkPerceptionConfig {
  viewDistance : R;
  viewAngle : R;
  peripheralAngle : R;
  hearingRange : R;
  alertHearingRange : R;
  perceptionCooldown : R;
  memoryDuration : R
}.

Definition DEFAULT_PERCEPTION_CONFIG : PerceptionConfig :=
  mkPerceptionConfig 30 (PI / 2) (PI * 0.8) 20 30 100 3000.

(** ** Cover data ([CoverSystem.ts]) *)

Inductive CoverType : Type := LOW | HIGH | DYNAMIC | ENERGY.

Definition CoverType_eqb (a b : CoverType) : bool :=
  match a, b with
  | LOW, LOW | HIGH, HIGH | DYNAMIC, DYNAMIC | ENERGY, ENERGY => true
  | _, _ => false
  end.

Module CoverSpot.
Record t : Type := mk {
  id : string;
  position : Vector3;
  quality : R;
  coverType : CoverType;
  directions : list Vector3;
  height : R;
  isDynamic : bool;
  health : option R
}.

(** The interface declares no [score] member and neither [addCoverSpot] nor
    [createTestCover] stores one: reading [spot.score] gives [undefined]. *)
Definition score (c : t) : option R := None.
End CoverSpot.

Record CoverState : Type := mkCoverState {
  currentCover : option CoverSpot.t;
  targetCover : option CoverSpot.t;
  isMovingToCover : bool;
  coverTimer : R;
  retreatHealthThreshold : R
}.

(** ** The agent ([AICharacter.ts]) *)

(** The part of [AIConfig] that the constructor reads ([movement] is carried
    by the configuration but never copied into the agent). *)
Record AIConfig : Type := mkAIConfig {
  cfg_type : string;
  cfg_health : R;
  cfg_armor : R;
  cfg_damage : R;
  cfg_hearingRange : R;
  cfg_viewAngle : R;
  cfg_viewDistance : R
}.

(** [EnemyType.GRUNT] is declared in [core/constants.ts], which is not among
    the sources; its value is taken to be the lowercase name, like the
    literals ['flanker'], ['elite'] and ['soldier'] that the code compares
    [type] with. *)
Definition DEFAULT_AI_CONFIG : AIConfig :=
  mkAIConfig "grunt" 50 0 10 20 (PI / 2) 30.

Module AICharacter.

(** The fields that the methods below read or write.  [hasBehaviorTree]
    stands for [behaviorTree !== null]; the attack timer and the navigation
    path, which only [attack] and outside code use, are left out. *)
Record t : Type := mk {
  id : string;
  name : string;
  type : string;
  position : Vector3;
  rotation : Euler;
  velocity : Vector3;
  health : R;
  maxHealth : R;
  armor : R;
  damage : R;
  state : AIState;
  isAlive : bool;
  isMoving : bool;
  isAttacking : bool;
  isInCover : bool;
  hasBehaviorTree : bool;
  perception : option PerceptionResult;
  perceptionConfig : PerceptionConfig;
  canUseCover : bool;
  coverState : CoverState;
  targetPosition : Vector3;
  alertTarget : option Vector3;
  patrolPoints : list Vector3;
  currentPatrolIndex : nat
}.

Definition set_position (v : Vector3) (a : t) : t :=
  mk (a.(id)) (a.(name)) (a.(type)) v (a.(rotation)) (a.(velocity))
    (a.(health)) (a.(maxHealth)) (a.(armor)) (a.(damage)) (a.(state))
    (a.(isAlive)) (a.(isMoving)) (a.(isAttacking)) (a.(isInCover))
    (a.(hasBehaviorTree)) (a.(perception)) (a.(perceptionConfig))
    (a.(canUseCover)) (a.(coverState)) (a.(targetPosition))
    (a.(alertTarget)) (a.(patrolPoints)) (a.(currentPatrolIndex)).

Definition set_rotation (v : Euler) (a : t) : t :=
  mk (a.(id)) (a.(name)) (a.(type)) (a.(position)) v (a.(velocity))
    (a.(health)) (a.(maxHealth)) (a.(armor)) (a.(damage)) (a.(state))
    (a.(isAlive)) (a.(isMoving)) (a.(isAttacking)) (a.(isInCover))
    (a.(hasBehaviorTree)) (a.(perception)) (a.(perceptionConfig))
    (a.(canUseCover)) (a.(coverState)) (a.(targetPosition))
    (a.(alertTarget)) (a.(patrolPoints)) (a.(currentPatrolIndex)).

Definition set_velocity (v : Vector3) (a : t) : t :=
  mk (a.(id)) (a.(name)) (a.(type)) (a.(position)) (a.(rotation)) v
    (a.(health)) (a.(maxHealth)) (a.(armor)) (a.(damage)) (a.(state))
    (a.(isAlive)) (a.(isMoving)) (a.(isAttacking)) (a.(isInCover))
    (a.(hasBehaviorTree)) (a.(perception)) (a.(perceptionConfig))
    (a.(canUseCover)) (a.(coverState)) (a.(targetPosition))
    (a.(alertTarget)) (a.(patrolPoints)) (a.(currentPatrolIndex)).

Definition set_health (v : R) (a : t) : t :=
  mk (a.(id)) (a.(name)) (a.(type)) (a.(position)) (a.(rotation))
    (a.(velocity)) v (a.(maxHealth)) (a.(armor)) (a.(damage)) (a.(state))
    (a.(isAlive)) (a.(isMoving)) (a.(isAttacking)) (a.(isInCover))
    (a.(hasBehaviorTree)) (a.(perception)) (a.(perceptionConfig))
    (a.(canUseCover)) (a.(coverState)) (a.(targetPosition))
    (a.(alertTarget)) (a.(patrolPoints)) (a.(currentPatrolIndex)).

Definition set_armor (v : R) (a : t) : t :=
  mk (a.(id)) (a.(name)) (a.(type)) (a.(position)) (a.(rotation))
    (a.(velocity)) (a.(health)) (a.(maxHealth)) v (a.(damage)) (a.(state))
    (a.(isAlive)) (a.(isMoving)) (a.(isAttacking)) (a.(isInCover))
    (a.(hasBehaviorTree)) (a.(perception)) (a.(perceptionConfig))
    (a.(canUseCover)) (a.(coverState)) (a.(targetPosition))
    (a.(alertTarget)) (a.(patrolPoints)) (a.(currentPatrolIndex)).

Definition set_state (v : AIState) (a : t) : t :=
  mk (a.(id)) (a.(name)) (a.(type)) (a.(position)) (a.(rotation))
    (a.(velocity)) (a.(health)) (a.(maxHealth)) (a.(armor)) (a.(damage)) v
    (a.(isAlive)) (a.(isMoving)) (a.(isAttacking)) (a.(isInCover))
    (a.(hasBehaviorTree)) (a.(perception)) (a.(perceptionConfig))
    (a.(canUseCover)) (a.(coverState)) (a.(targetPosition))
    (a.(alertTarget)) (a.(patrolPoints)) (a.(currentPatrolIndex)).

Definition set_isAlive (v : bool) (a : t) : t :=
  mk (a.(id)) (a.(name)) (a.(type)) (a.(position)) (a.(rotation))
    (a.(velocity)) (a.(health)) (a.(maxHealth)) (a.(armor)) (a.(damage))
    (a.(state)) v (a.(isMoving)) (a.(isAttacking)) (a.(isInCover))
    (a.(hasBehaviorTree)) (a.(perception)) (a.(perceptionConfig))
    (a.(canUseCover)) (a.(coverState)) (a.(targetPosition))
    (a.(alertTarget)) (a.(patrolPoints)) (a.(currentPatrolIndex)).

Definition set_isMoving (v : bool) (a : t) : t :=
  mk (a.(id)) (a.(name)) (a.(type)) (a.(position)) (a.(rotation))
    (a.(velocity)) (a.(health)) (a.(maxHealth)) (a.(armor)) (a.(damage))
    (a.(state)) (a.(isAlive)) v (a.(isAttacking)) (a.(isInCover))
    (a.(hasBehaviorTree)) (a.(perception)) (a.(perceptionConfig))
    (a.(canUseCover)) (a.(coverState)) (a.(targetPosition))
    (a.(alertTarget)) (a.(patrolPoints)) (a.(currentPatrolIndex)).

Definition set_isAttacking (v : bool) (a : t) : t :=
  mk (a.(id)) (a.(name)) (a.(type)) (a.(position)) (a.(rotation))
    (a.(velocity)) (a.(health)) (a.(maxHealth)) (a.(armor)) (a.(damage))
    (a.(state)) (a.(isAlive)) (a.(isMoving)) v (a.(isInCover))
    (a.(hasBehaviorTree)) (a.(perception)) (a.(perceptionConfig))
    (a.(canUseCover)) (a.(coverState)) (a.(targetPosition))
    (a.(alertTarget)) (a.(patrolPoints)) (a.(currentPatrolIndex)).

Definition set_isInCover (v : bool) (a : t) : t :=
  mk (a.(id)) (a.(name)) (a.(type)) (a.(position)) (a.(rotation))
    (a.(velocity)) (a.(health)) (a.(maxHealth)) (a.(armor)) (a.(damage))
    (a.(state)) (a.(isAlive)) (a.(isMoving)) (a.(isAttacking)) v
    (a.(hasBehaviorTree)) (a.(perception)) (a.(perceptionConfig))
    (a.(canUseCover)) (a.(coverState)) (a.(targetPosition))
    (a.(alertTarget)) (a.(patrolPoints)) (a.(currentPatrolIndex)).

Definition set_perception (v : option PerceptionResult) (a : t) : t :=
  mk (a.(id)) (a.(name)) (a.(type)) (a.(position)) (a.(rotation))
    (a.(velocity)) (a.(health)) (a.(maxHealth)) (a.(armor)) (a.(damage))
    (a.(state)) (a.(isAlive)) (a.(isMoving)) (a.(isAttacking))
    (a.(isInCover)) (a.(hasBehaviorTree)) v (a.(perceptionConfig))
    (a.(canUseCover)) (a.(coverState)) (a.(targetPosition))
    (a.(alertTarget)) (a.(patrolPoints)) (a.(currentPatrolIndex)).

Definition set_coverState (v : CoverState) (a : t) : t :=
  mk (a.(id)) (a.(name)) (a.(type)) (a.(position)) (a.(rotation))
    (a.(velocity)) (a.(health)) (a.(maxHealth)) (a.(armor)) (a.(damage))
    (a.(state)) (a.(isAlive)) (a.(isMoving)) (a.(isAttacking))
    (a.(isInCover)) (a.(hasBehaviorTree)) (a.(perception))
    (a.(perceptionConfig)) (a.(canUseCover)) v (a.(targetPosition))
    (a.(alertTarget)) (a.(patrolPoints)) (a.(currentPatrolIndex)).

Definition set_targetPosition (v : Vector3) (a : t) : t :=
  mk (a.(id)) (a.(name)) (a.(type)) (a.(position)) (a.(rotation))
    (a.(velocity)) (a.(health)) (a.(maxHealth)) (a.(armor)) (a.(damage))
    (a.(state)) (a.(isAlive)) (a.(isMoving)) (a.(isAttacking))
    (a.(isInCover)) (a.(hasBehaviorTree)) (a.(perception))
    (a.(perceptionConfig)) (a.(canUseCover)) (a.(coverState)) v
    (a.(alertTarget)) (a.(patrolPoints)) (a.(currentPatrolIndex)).

Definition set_alertTarget (v : option Vector3) (a : t) : t :=
  mk (a.(id)) (a.(name)) (a.(type)) (a.(position)) (a.(rotation))
    (a.(velocity)) (a.(health)) (a.(maxHealth)) (a.(armor)) (a.(damage))
    (a.(state)) (a.(isAlive)) (a.(isMoving)) (a.(isAttacking))
    (a.(isInCover)) (a.(hasBehaviorTree)) (a.(perception))
    (a.(perceptionConfig)) (a.(canUseCover)) (a.(coverState))
    (a.(targetPosition)) v (a.(patrolPoints)) (a.(currentPatrolIndex)).

Definition set_currentPatrolIndex (v : nat) (a : t) : t :=
  mk (a.(id)) (a.(name)) (a.(type)) (a.(position)) (a.(rotation))
    (a.(velocity)) (a.(health)) (a.(maxHealth)) (a.(armor)) (a.(damage))
    (a.(state)) (a.(isAlive)) (a.(isMoving)) (a.(isAttacking))
    (a.(isInCover)) (a.(hasBehaviorTree)) (a.(perception))
    (a.(perceptionConfig)) (a.(canUseCover)) (a.(coverState))
    (a.(targetPosition)) (a.(alertTarget)) (a.(patrolPoints)) v.

(** [new AICharacter(id, name, config)], [config] already merged over
    [DEFAULT_AI_CONFIG]. *)
Definition new (id name : string) (finalConfig : AIConfig) : t :=
  mk id name (cfg_type finalConfig)
    zero (mkEuler 0 0 0) zero
    (cfg_health finalConfig) (cfg_health finalConfig)
    (cfg_armor finalConfig) (cfg_damage finalConfig)
    IDLE true false false false false
    None
    (mkPerceptionConfig (cfg_viewDistance finalConfig) (cfg_viewAngle finalConfig)
       (peripheralAngle DEFAULT_PERCEPTION_CONFIG) (cfg_hearingRange finalConfig)
       (alertHearingRange DEFAULT_PERCEPTION_CONFIG)
       (perceptionCooldown DEFAULT_PERCEPTION_CONFIG)
       (memoryDuration DEFAULT_PERCEPTION_CONFIG))
    false
    (mkCoverState None None false 0 0.3)
    zero None [] 0.

Definition getForwardDirection (a : t) : Vector3 :=
  forwardOfEuler (rotation a).

(** [moveToward(target, deltaTime, speed?)]; [speed || 2.0] falls back to 2
    when the argument is absent or zero. *)
Definition moveToward (target : Vector3) (deltaTime : R) (speed : option R)
    (a : t) : t :=
  let tempVector := subVectors target (position a) in
  let distance := length tempVector in
  if JS.ltb distance 0.5 then set_velocity zero a
  else
    let moveSpeed :=
      match speed with
      | Some s => if JS.eqb s 0 then 2 else s
      | None => 2
      end in
    set_velocity (multiplyScalar (normalize tempVector) moveSpeed) a.

Definition stopMoving (a : t) : t :=
  set_isMoving false (set_velocity zero a).

Definition rotateTowardTarget (deltaTime : R) (a : t) : t :=
  if JS.eqb (lengthSq (targetPosition a)) 0 then a
  else
    let d := subVectors (targetPosition a) (position a) in
    let tempVector := mkVector3 (x d) 0 (z d) in
    if JS.ltb (lengthSq tempVector) 0.01 then a
    else
      let tempVector := normalize tempVector in
      set_rotation
        (mkEuler (ex (rotation a))
           (lerp (ey (rotation a)) (JS.atan2 (x tempVector) (z tempVector))
              (deltaTime * 5))
           (ez (rotation a))) a.

Definition updateState (a : t) : t :=
  let speed := length (velocity a) in
  let a := set_isMoving (JS.gtb speed 0.1) a in
  if isInCover a then set_state COVER a
  else if match perception a with Some p => hasLineOfSight p | None => false end
  then set_state COMBAT a
  else if isMoving a then
    (if JS.gtb speed 3 then set_state CHASE a else set_state PATROL a)
  else set_state IDLE a.

Definition update (deltaTime : R) (a : t) : t :=
  if negb (isAlive a) then a
  else
    let a := set_position (addScaledVector (position a) (velocity a) deltaTime) a in
    let a := rotateTowardTarget deltaTime a in
    updateState a.

Definition updateBasic (deltaTime : R) (a : t) : t := a.
Definition updateFull (deltaTime : R) (a : t) : t :=
  update deltaTime a.
Definition updateSimplified (deltaTime : R) (a : t) : t :=
  update deltaTime a.

Definition startPatrol (a : t) : t :=
  match patrolPoints a with
  | [] => a
  | _ :: _ => set_currentPatrolIndex 0%nat a
  end.

Definition startRetreat (a : t) : t :=
  let tempVector := normalize (subVectors (position a) (targetPosition a)) in
  set_targetPosition (addScaledVector (position a) tempVector 20) a.

Definition transitionTo (newState : AIState) (a : t) : t :=
  if AIState_eqb (state a) newState then a
  else
    let a := set_state newState a in
    match newState with
    | PATROL => startPatrol a
    | CHASE => a
    | COMBAT => set_isAttacking true a
    | RETREAT => startRetreat a
    | _ => a
    end.

Definition setTargetCover (cover : CoverSpot.t) (a : t) : t :=
  let cs := coverState a in
  set_isInCover false
    (set_coverState
       (mkCoverState (currentCover cs) (Some cover) true (coverTimer cs)
          (retreatHealthThreshold cs)) a).

Definition leaveCover (a : t) : t :=
  let cs := coverState a in
  set_isInCover false
    (set_coverState
       (mkCoverState None None false (coverTimer cs) (retreatHealthThreshold cs)) a).

Definition setAlertTarget (p : Vector3) (a : t) : t :=
  set_targetPosition p (set_alertTarget (Some p) a).

(** [executeFlankManuver]; [r1] and [r2] are the two values drawn from
    [Math.random()]. *)
Definition executeFlankManuver (r1 r2 : R) (target : Vector3) (a : t)
    : t :=
  let offset := mkVector3 ((r1 - 0.5) * 20) 0 ((r2 - 0.5) * 20) in
  let a := set_targetPosition (add target offset) a in
  moveToward (targetPosition a) 0.016 (Some 4) a.

Definition die (a : t) : t :=
  set_isAttacking false (set_velocity zero (set_state DEAD (set_isAlive false a))).

Definition takeDamage (amount : R) (a : t) : t :=
  if negb (isAlive a) then a
  else
    let dmg := amount in
    let '(a, dmg) :=
      if JS.gtb (armor a) 0 then
        let armorDamage := Rmin (dmg * 0.5) (armor a) in
        (set_armor (armor a - armorDamage) a, dmg - armorDamage)
      else (a, dmg) in
    let a := set_health (Rmax 0 (health a - dmg)) a in
    if JS.leb (health a) 0 then die a else a.

Definition respawn (p : Vector3) (a : t) : t :=
  set_state IDLE
    (set_isAlive true (set_armor 0 (set_health (maxHealth a) (set_position p a)))).


(** [patrol].  With waypoints present, [patrolPoints[currentPatrolIndex]] is
    [undefined] for an index past the end and [distanceTo(undefined)]
    raises a [TypeError]: [None] stands for that exception. *)
Definition patrol (a : t) : option t :=
  match patrolPoints a with
  | [] => Some a
  | _ :: _ =>
      match nth_error (patrolPoints a) (currentPatrolIndex a) with
      | None => None
      | Some target =>
          let distance := distanceTo (position a) target in
          if JS.ltb distance 1 then
            Some
              (set_currentPatrolIndex
                 ((currentPatrolIndex a + 1) mod List.length (patrolPoints a))%nat
                 a)
          else Some (moveToward target 0.016 (Some 1.5) a)
      end
  end.

End AICharacter.

(** ** Insertion-ordered maps and stable sorting *)

(** A JavaScript [Map] keyed by strings: iteration follows insertion order,
    [set] on a present key keeps its place. *)
Module JSMap.

Section Map.
Context {V : Type}.

Definition t : Type := list (string * V).

Fixpoint get (k : string) (m : t) : option V :=
  match m with
  | [] => None
  | (k', v) :: m' => if String.eqb k k' then Some v else get k m'
  end.

Fixpoint set (k : string) (v : V) (m : t) : t :=
  match m with
  | [] => [(k, v)]
  | (k', v') :: m' =>
      if String.eqb k k' then (k', v) :: m' else (k', v') :: set k v m'
  end.

Fixpoint delete (k : string) (m : t) : t :=
  match m with
  | [] => []
  | (k', v') :: m' => if String.eqb k k' then m' else (k', v') :: delete k m'
  end.

Definition values (m : t) : list V := map snd m.

Definition size (m : t) : nat := List.length m.

End Map.

Arguments t : clear implicits.

End JSMap.

(** [Array.prototype.sort((a, b) => key(b) - key(a))]: a stable sort into
    descending order of [key]. *)
Section SortDesc.
Context {A : Type} (key : A -> R).

Fixpoint insert_desc (a : A) (l : list A) : list A :=
  match l with
  | [] => [a]
  | b :: l' => if JS.ltb (key a) (key b) then b :: insert_desc a l' else a :: l
  end.

Definition sort_desc (l : list A) : list A := fold_right insert_desc [] l.

(** The order that [sort_desc] establishes. *)
Definition descending (a b : A) : Prop := key a >= key b.

End SortDesc.

(** ** Exceptions *)

(** An expression that may raise: [None] stands for a raised [TypeError]. *)
Definition bindE {A B : Type} (e : option A) (k : A -> option B) : option B :=
  match e with
  | Some a => k a
  | None => None
  end.

Notation "x <- e ;; k" := (bindE e (fun x => k))
  (at level 61, e at next level, right associativity).

(** How a call that works on state [S] ends: it returns, or it raises with
    the state as it was when the exception left the call (what was written
    before stays written). *)
Inductive Completion (S : Type) : Type :=
| Normal (s : S)
| Throw (s : S).

Arguments Normal {S} s.
Arguments Throw {S} s.

Definition stateOf {S : Type} (c : Completion S) : S :=
  match c with
  | Normal s => s
  | Throw s => s
  end.

Definition returned {S : Type} (c : Completion S) : bool :=
  match c with
  | Normal _ => true
  | Throw _ => false
  end.

(** [Array.prototype.sort] with a comparator that may raise: the comparator
    computes the key of both elements, so it is called, and can raise, only
    when there are two elements to compare. *)
Section SortDescE.
Context {A : Type} (key : A -> option R).

Fixpoint insert_descE (a : A) (l : list A) : option (list A) :=
  match l with
  | [] => Some [a]
  | b :: l' =>
      ka <- key a ;;
      kb <- key b ;;
      if JS.ltb ka kb
      then l'' <- insert_descE a l' ;; Some (b :: l'')
      else Some (a :: l)
  end.

Fixpoint sort_descE (l : list A) : option (list A) :=
  match l with
  | [] => Some []
  | a :: l' => s <- sort_descE l' ;; insert_descE a s
  end.

End SortDescE.

(** ** The perception system ([Perception.ts]) *)

Module PerceptionSystem.

Record t : Type := mk {
  lastKnownPosition : Vector3;
  lastSeenTime : R;
  lastHeardTime : R;
  lastDamagePosition : option Vector3;
  lastDamageTime : R
}.

Definition new : t := mk zero 0 0 None 0.

Definition checkVision (enemyPosition enemyForward targetPosition : Vector3)
    (config : PerceptionConfig) : bool :=
  let tempDirection := subVectors targetPosition enemyPosition in
  let distance := length tempDirection in
  let tempDirection := normalize tempDirection in
  if JS.gtb distance (viewDistance config) then false
  else
    let dot := dot enemyForward tempDirection in
    let viewHalfAngle := viewAngle config / 2 in
    if JS.geb dot (cos viewHalfAngle) then true
    else if JS.geb dot (cos (peripheralAngle config / 2))
    then JS.ltb distance (viewDistance config * 0.5)
    else false.

Definition checkHearing (enemyPosition targetPosition : Vector3) (distance : R)
    (config : PerceptionConfig) : bool :=
  if JS.gtb distance (alertHearingRange config) then false
  else JS.ltb distance (hearingRange config).

(** [checkDamage]; [now] is its own reading of the clock. *)
Definition checkDamage (now : R) (ps : t) (enemy : AICharacter.t) : bool :=
  if JS.ltb (now - lastDamageTime ps) 1000 then true else false.

Definition recordDamage (now : R) (position : Vector3) (ps : t) : t :=
  mk (lastKnownPosition ps) (lastSeenTime ps) (lastHeardTime ps)
    (Some position) now.

Definition getHearingSensitivity (enemy : AICharacter.t) : R :=
  if String.eqb (AICharacter.type enemy) "elite" then 1.5
  else if String.eqb (AICharacter.type enemy) "soldier" then 1.2
  else 1.

(** [update(enemy, targetPosition)]: [now] is the clock reading taken on
    entry, [nowDamage] the later one taken inside [checkDamage]. *)
Definition update (now nowDamage : R) (ps : t) (enemy : AICharacter.t)
    (targetPosition : Vector3) : t * PerceptionResult :=
  let config := AICharacter.perceptionConfig enemy in
  let tempVector := subVectors targetPosition (AICharacter.position enemy) in
  let distanceToTarget := length tempVector in
  let tempVector := normalize tempVector in
  let tempForward := AICharacter.getForwardDirection enemy in
  let angleToTarget := angleTo tempForward tempVector in
  let hasLineOfSight :=
    checkVision (AICharacter.position enemy) tempForward targetPosition config in
  let ps :=
    if hasLineOfSight
    then mk targetPosition now (lastHeardTime ps) (lastDamagePosition ps)
           (lastDamageTime ps)
    else ps in
  let canHear :=
    checkHearing (AICharacter.position enemy) targetPosition distanceToTarget
      config in
  let ps :=
    if canHear
    then mk (lastKnownPosition ps) (lastSeenTime ps) now (lastDamagePosition ps)
           (lastDamageTime ps)
    else ps in
  let isTakingDamage := checkDamage nowDamage ps enemy in
  (ps,
   mkPerceptionResult hasLineOfSight
     (if hasLineOfSight then Some targetPosition else None)
     distanceToTarget angleToTarget canHear (getHearingSensitivity enemy)
     isTakingDamage (lastDamagePosition ps) (lastDamageTime ps)
     (now - lastSeenTime ps) (now - lastHeardTime ps)).

Definition getLastKnownPosition (ps : t) : Vector3 := lastKnownPosition ps.

Definition remembersTarget (now : R) (config : PerceptionConfig) (ps : t) : bool :=
  JS.ltb (now - lastSeenTime ps) (memoryDuration config)
  || JS.ltb (now - lastHeardTime ps) (memoryDuration config).

End PerceptionSystem.

(** ** The cover system ([CoverSystem.ts]) *)

Module CoverSystem.

Record t : Type := mk { coverSpots : JSMap.t CoverSpot.t }.

Definition new : t := mk [].

(** [addCoverSpot], past the construction of [coverSpot] from the scene
    object; [createTestCover] stores its spot the same way. *)
Definition addCoverSpot (coverSpot : CoverSpot.t) (cs : t) : t :=
  mk (JSMap.set (CoverSpot.id coverSpot) coverSpot (coverSpots cs)).

Definition getAvailableCovers (cs : t) (enemy : AICharacter.t)
    : list CoverSpot.t :=
  let maxDistance := 30 in
  filter
    (fun cover =>
       let distance :=
         distanceTo (AICharacter.position enemy) (CoverSpot.position cover) in
       JS.ltb distance maxDistance
       && match CoverSpot.health cover with
          | None => true
          | Some h => JS.gtb h 0
          end)
    (JSMap.values (coverSpots cs)).

Definition scoreCover (cover : CoverSpot.t) (enemy : AICharacter.t)
    (threatPosition : Vector3) : R :=
  let score := 0 in
  let distance :=
    distanceTo (AICharacter.position enemy) (CoverSpot.position cover) in
  let score := score + Rmax 0 ((30 - distance) / 30) * 0.3 in
  let score := score + CoverSpot.quality cover * 0.3 in
  let tempDirection :=
    normalize (subVectors (CoverSpot.position cover) (AICharacter.position enemy)) in
  let threatDirection :=
    normalize (subVectors threatPosition (AICharacter.position enemy)) in
  let angleToThreat := angleTo tempDirection threatDirection in
  let score := if JS.ltb angleToThreat (PI / 2) then score + 0.4 else score in
  let score :=
    if CoverType_eqb (CoverSpot.coverType cover) HIGH then score + 0.1 else score in
  score.

(** [findBestCover].  [scoredCovers] pairs each spot with its score;
    [bestCover] is the [spot] of the first pair, so the later read
    [bestCover.score] is a read of [score] on a [CoverSpot]. *)
Definition findBestCover (cs : t) (enemy : AICharacter.t)
    (threatPosition : Vector3) (currentCoverState : option CoverState)
    : option CoverSpot.t :=
  let availableCovers := getAvailableCovers cs enemy in
  match availableCovers with
  | [] => None
  | _ :: _ =>
      let scoredCovers :=
        map (fun cover => (cover, scoreCover cover enemy threatPosition))
          availableCovers in
      let scoredCovers := sort_desc snd scoredCovers in
      let bestCover := option_map fst (hd_error scoredCovers) in
      match
        match currentCoverState with
        | Some st => currentCover st
        | None => None
        end, bestCover
      with
      | Some current, Some best =>
          let currentScore := scoreCover current enemy threatPosition in
          if JS.lt (JS.sub (JS.ToNumber (CoverSpot.score best)) (JS.Num currentScore))
               (JS.Num 0.2)
          then Some current
          else bestCover
      | _, _ => bestCover
      end
  end.

Definition moveToCover (enemy : AICharacter.t) : AICharacter.t :=
  let st := AICharacter.coverState enemy in
  match targetCover st with
  | None => enemy
  | Some target =>
      let targetPosition := CoverSpot.position target in
      let distance := distanceTo (AICharacter.position enemy) targetPosition in
      if JS.ltb distance 1 then
        AICharacter.set_isInCover true
          (AICharacter.set_coverState
             (mkCoverState (Some target) (targetCover st) false (coverTimer st)
                (retreatHealthThreshold st)) enemy)
      else AICharacter.moveToward targetPosition 0.016 None enemy
  end.

Definition checkCoverStatus (cs : t) (enemy : AICharacter.t)
    (threatPosition : Vector3) : AICharacter.t :=
  match currentCover (AICharacter.coverState enemy) with
  | None => enemy
  | Some cover =>
      let coverToThreat :=
        normalize (subVectors threatPosition (CoverSpot.position cover)) in
      let enemyToThreat :=
        normalize (subVectors threatPosition (AICharacter.position enemy)) in
      let angle := angleTo coverToThreat enemyToThreat in
      let enemy :=
        if JS.gtb angle (PI * 0.7) then
          match
            findBestCover cs enemy threatPosition
              (Some (AICharacter.coverState enemy))
          with
          | Some newCover =>
              if negb (String.eqb (CoverSpot.id newCover) (CoverSpot.id cover))
              then AICharacter.setTargetCover newCover enemy
              else AICharacter.leaveCover enemy
          | None => AICharacter.leaveCover enemy
          end
        else enemy in
      if CoverSpot.isDynamic cover
         && match CoverSpot.health cover with
            | Some h => JS.leb h 0
            | None => false
            end
      then AICharacter.leaveCover enemy
      else enemy
  end.

Definition update (cs : t) (enemy : AICharacter.t) (playerPosition : Vector3)
    (perception : PerceptionResult) : AICharacter.t :=
  let needsCover :=
    isTakingDamage perception
    || JS.ltb (distanceToTarget perception) 15
    || (JS.ltb (AICharacter.health enemy) (AICharacter.maxHealth enemy * 0.5)
        && hasLineOfSight perception) in
  let enemy :=
    if needsCover
       && match currentCover (AICharacter.coverState enemy) with
          | None => true
          | Some _ => false
          end
    then
      match
        findBestCover cs enemy playerPosition (Some (AICharacter.coverState enemy))
      with
      | Some bestCover => AICharacter.setTargetCover bestCover enemy
      | None => enemy
      end
    else enemy in
  let enemy :=
    if isMovingToCover (AICharacter.coverState enemy) then moveToCover enemy
    else enemy in
  checkCoverStatus cs enemy playerPosition.

(** [CoverSystem.leaveCover(enemy)]: a fresh cover state. *)
Definition leaveCover (enemy : AICharacter.t) : AICharacter.t :=
  AICharacter.set_isInCover false
    (AICharacter.set_coverState (mkCoverState None None false 0 0.3) enemy).

Definition getAllCovers (cs : t) : list CoverSpot.t :=
  JSMap.values (coverSpots cs).

Definition clear (cs : t) : t := mk [].

End CoverSystem.

(** ** The scheduler ([AIManager.ts]) *)

(** [GAME_CONFIG] ([Core.ts]). *)
Definition AI_TIME_BUDGET_MS : R := 8.
Definition AI_BATCH_SIZE : nat := 10.
Definition MAX_ACTIVE_ENEMIES : nat := 50.

Module AIManager.

(** The value handed to [BehaviorTree.setContext]. *)
Record BehaviorContext : Type := mkBehaviorContext {
  ctx_targetPosition : Vector3;
  ctx_hasLineOfSight : bool;
  ctx_distanceToTarget : R;
  ctx_isInCover : bool;
  ctx_isUnderFire : bool;
  ctx_health : R;
  ctx_maxHealth : R
}.

Record t : Type := mk {
  enemies : JSMap.t AICharacter.t;
  perception : PerceptionSystem.t;
  coverSystem : CoverSystem.t;
  playerPosition : Vector3;
  timeBudget : R;
  batchSize : nat;
  currentBatchIndex : nat;
  updateTime : R;
  activeCount : nat
}.

Definition new : t :=
  mk [] PerceptionSystem.new CoverSystem.new zero AI_TIME_BUDGET_MS AI_BATCH_SIZE
    0 0 0.

Definition set_enemies (v : JSMap.t AICharacter.t) (m : t) : t :=
  mk v (perception m) (coverSystem m) (playerPosition m) (timeBudget m)
    (batchSize m) (currentBatchIndex m) (updateTime m) (activeCount m).

Definition set_perception (v : PerceptionSystem.t) (m : t) : t :=
  mk (enemies m) v (coverSystem m) (playerPosition m) (timeBudget m)
    (batchSize m) (currentBatchIndex m) (updateTime m) (activeCount m).

Definition set_currentBatchIndex (v : nat) (m : t) : t :=
  mk (enemies m) (perception m) (coverSystem m) (playerPosition m) (timeBudget m)
    (batchSize m) v (updateTime m) (activeCount m).

Definition set_stats (time : R) (count : nat) (m : t) : t :=
  mk (enemies m) (perception m) (coverSystem m) (playerPosition m) (timeBudget m)
    (batchSize m) (currentBatchIndex m) time count.

Definition registerEnemy (enemy : AICharacter.t) (m : t) : t :=
  set_enemies (JSMap.set (AICharacter.id enemy) enemy (enemies m)) m.

Definition removeEnemy (enemyId : string) (m : t) : t :=
  set_enemies (JSMap.delete enemyId (enemies m)) m.

Definition updatePlayerPosition (p : Vector3) (m : t) : t :=
  mk (enemies m) (perception m) (coverSystem m) p (timeBudget m)
    (batchSize m) (currentBatchIndex m) (updateTime m) (activeCount m).

(** [AIState.member] as [AIManager.ts] evaluates it.  The file takes
    [AIState] from './AICharacter' (its second import), but [AICharacter.ts]
    only imports the enum for its own use and exports the class, [AIConfig]
    and [DEFAULT_AI_CONFIG]: here the binding is [undefined], and reading a
    member of [undefined] raises a [TypeError]. *)
Definition AIState_member (member : AIState) : option AIState := None.

(** [getPriority]; the comparisons with [AIState.COMBAT], [AIState.CHASE]
    (read only when the first comparison is false) and [AIState.ALERT] read
    the enum. *)
Definition getPriority (m : t) (enemy : AICharacter.t) : option R :=
  let priority := 0 in
  combat <- AIState_member COMBAT ;;
  inFight <-
    (if AIState_eqb (AICharacter.state enemy) combat then Some true
     else chase <- AIState_member CHASE ;;
          Some (AIState_eqb (AICharacter.state enemy) chase)) ;;
  let priority := if inFight : bool then priority + 3 else priority in
  alert <- AIState_member ALERT ;;
  let priority :=
    if AIState_eqb (AICharacter.state enemy) alert
    then priority + 2 else priority in
  let priority :=
    if JS.ltb (AICharacter.health enemy) (AICharacter.maxHealth enemy * 0.3)
    then priority + 1 else priority in
  let distance := distanceTo (AICharacter.position enemy) (playerPosition m) in
  Some (priority + Rmax 0 ((100 - distance) / 100)).

(** [sortEnemiesByPriority]: the registry's values in iteration order, then
    sorted; each element is kept with its registry key, which stands for
    the reference to the agent object.  Raises when [getPriority] does. *)
Definition sortEnemiesByPriority (m : t)
    : option (list (string * AICharacter.t)) :=
  sort_descE (fun e => getPriority m (snd e)) (enemies m).

(** The host: what the clock and the random generator return at each read,
    and how many reads were made. *)
Record World : Type := mkWorld { clockReads : nat; randomDraws : nat }.

Section Host.

Variable performance_now : nat -> R.
Variable Math_random : nat -> R.

(** [BehaviorTree.ts] is not among the sources: the effect of
    [setContext(ctx)] followed by [update(deltaTime)] on the agent that owns
    the tree is a parameter. *)
Variable behaviorTree_update :
  BehaviorContext -> R -> AICharacter.t -> AICharacter.t.

Definition readClock (w : World) : R * World :=
  (performance_now (clockReads w), mkWorld (S (clockReads w)) (randomDraws w)).

Definition drawRandom (w : World) : R * World :=
  (Math_random (randomDraws w), mkWorld (clockReads w) (S (randomDraws w))).

(** [this.perception.update(enemy, this.playerPosition)] on the manager's one
    perception system, the result stored on the agent. *)
Definition perceive (w : World) (m : t) (enemy : AICharacter.t)
    : World * t * AICharacter.t * PerceptionResult :=
  let '(now, w) := readClock w in
  let '(nowDamage, w) := readClock w in
  let '(ps, perceptionResult) :=
    PerceptionSystem.update now nowDamage (perception m) enemy (playerPosition m) in
  (w, set_perception ps m,
   AICharacter.set_perception (Some perceptionResult) enemy, perceptionResult).

Definition updateEnemyFull (w : World) (m : t) (enemy : AICharacter.t)
    (deltaTime : R) : World * t * AICharacter.t :=
  if negb (AICharacter.isAlive enemy) then (w, m, enemy)
  else
    let '(w, m, enemy, perceptionResult) := perceive w m enemy in
    let enemy :=
      if AICharacter.canUseCover enemy
      then CoverSystem.update (coverSystem m) enemy (playerPosition m)
             perceptionResult
      else enemy in
    let enemy :=
      if AICharacter.hasBehaviorTree enemy
      then behaviorTree_update
             (mkBehaviorContext (playerPosition m)
                (hasLineOfSight perceptionResult)
                (distanceToTarget perceptionResult)
                (AICharacter.isInCover enemy)
                (isTakingDamage perceptionResult)
                (AICharacter.health enemy) (AICharacter.maxHealth enemy))
             deltaTime enemy
      else enemy in
    (w, m, AICharacter.update deltaTime enemy).

Definition updateEnemySimplified (w : World) (m : t) (enemy : AICharacter.t)
    (deltaTime : R) : World * t * AICharacter.t :=
  if negb (AICharacter.isAlive enemy) then (w, m, enemy)
  else
    let '(w, m, enemy, perceptionResult) := perceive w m enemy in
    let enemy :=
      if hasLineOfSight perceptionResult
      then AICharacter.moveToward (playerPosition m) deltaTime None enemy
      else enemy in
    (w, m, AICharacter.update deltaTime enemy).

Definition updateEnemyBasic (w : World) (m : t) (enemy : AICharacter.t)
    (deltaTime : R) : World * t * AICharacter.t :=
  if negb (AICharacter.isAlive enemy) then (w, m, enemy)
  else (w, m, AICharacter.updateBasic deltaTime enemy).

(** LOD thresholds: [HIGH: 20], [MEDIUM: 50]. *)
Definition updateEnemy (w : World) (m : t) (enemy : AICharacter.t)
    (deltaTime : R) : World * t * AICharacter.t :=
  let distance := distanceTo (AICharacter.position enemy) (playerPosition m) in
  if JS.ltb distance 20 then updateEnemyFull w m enemy deltaTime
  else if JS.ltb distance 50 then updateEnemySimplified w m enemy deltaTime
  else updateEnemyBasic w m enemy deltaTime.

(** [updateEnemy] on the agent object that the registry holds under [key]. *)
Definition updateEnemyAt (w : World) (m : t) (key : string) (deltaTime : R)
    : World * t :=
  match JSMap.get key (enemies m) with
  | None => (w, m)
  | Some enemy =>
      let '(w, m, enemy) := updateEnemy w m enemy deltaTime in
      (w, set_enemies (JSMap.set key enemy (enemies m)) m)
  end.

(** The batch loop of [update], from index [i] on: [rest] is
    [sortedEnemies.slice(i)].  Returns the number of agents processed. *)
Fixpoint batchLoop (deltaTime startTime : R) (w : World) (m : t)
    (processed : nat) (rest : list (string * AICharacter.t))
    : World * t * nat :=
  match rest with
  | [] => (w, m, processed)
  | enemy :: rest' =>
      if (batchSize m <=? processed)%nat then (w, m, processed)
      else
        let '(now, w) := readClock w in
        if JS.gtb (now - startTime) (timeBudget m) then (w, m, processed)
        else
          let '(w, m) := updateEnemyAt w m (fst enemy) deltaTime in
          batchLoop deltaTime startTime w m (S processed) rest'
  end.

(** [alertNearbyEnemies(sourceEnemy)], over the registry entries [l].  The
    argument [AIState.ALERT] is evaluated before [transitionTo] is entered;
    when it raises, the entry at hand and those after it are as they were. *)
Fixpoint alertNearbyEnemies_loop (w : World) (playerPosition : Vector3)
    (sourceEnemy : AICharacter.t) (l : JSMap.t AICharacter.t)
    : Completion (World * JSMap.t AICharacter.t) :=
  match l with
  | [] => Normal (w, [])
  | (key, enemy) :: l' =>
      let step : Completion (World * AICharacter.t) :=
        if String.eqb (AICharacter.id enemy) (AICharacter.id sourceEnemy)
           || negb (AICharacter.isAlive enemy)
        then Normal (w, enemy)
        else
          let alertRadius := 30 in
          let distance :=
            distanceTo (AICharacter.position enemy)
              (AICharacter.position sourceEnemy) in
          if JS.ltb distance alertRadius then
            match AIState_member ALERT with
            | None => Throw (w, enemy)
            | Some alert =>
                let enemy := AICharacter.transitionTo alert enemy in
                let enemy := AICharacter.setAlertTarget playerPosition enemy in
                if String.eqb (AICharacter.type enemy) "flanker" then
                  let '(r1, w) := drawRandom w in
                  let '(r2, w) := drawRandom w in
                  Normal
                    (w, AICharacter.executeFlankManuver r1 r2 playerPosition enemy)
                else Normal (w, enemy)
            end
          else Normal (w, enemy) in
      match step with
      | Throw (w, enemy) => Throw (w, (key, enemy) :: l')
      | Normal (w, enemy) =>
          match alertNearbyEnemies_loop w playerPosition sourceEnemy l' with
          | Normal (w, l'') => Normal (w, (key, enemy) :: l'')
          | Throw (w, l'') => Throw (w, (key, enemy) :: l'')
          end
      end
  end.

Definition alertNearbyEnemies (w : World) (m : t) (sourceEnemy : AICharacter.t)
    : Completion (World * t) :=
  match
    alertNearbyEnemies_loop w (playerPosition m) sourceEnemy (enemies m)
  with
  | Normal (w, l) => Normal (w, set_enemies l m)
  | Throw (w, l) => Throw (w, set_enemies l m)
  end.

(** [updateGroupAI]: [keys] are the registry keys still to visit; each agent
    is read from the registry when its turn comes, so it is seen as earlier
    alerts of the same pass left it.  An exception from
    [alertNearbyEnemies] ends the pass. *)
Fixpoint updateGroupAI_loop (w : World) (m : t) (keys : list string)
    : Completion (World * t) :=
  match keys with
  | [] => Normal (w, m)
  | key :: keys' =>
      match JSMap.get key (enemies m) with
      | None => updateGroupAI_loop w m keys'
      | Some enemy =>
          if AICharacter.isAlive enemy
             && match AICharacter.perception enemy with
                | Some p => hasLineOfSight p
                | None => false
                end
          then
            match alertNearbyEnemies w m enemy with
            | Normal (w, m) => updateGroupAI_loop w m keys'
            | Throw s => Throw s
            end
          else updateGroupAI_loop w m keys'
      end
  end.

Definition updateGroupAI (w : World) (m : t) : Completion (World * t) :=
  updateGroupAI_loop w m (map fst (enemies m)).

(** The first part of [update]: sort, batch loop and cursor rotation.
    Returns the number of agents processed as well; [None] when the sort
    raises, which is before anything is written. *)
Definition updateBatch (w : World) (m : t) (deltaTime startTime : R)
    : option (World * t * nat) :=
  sortedEnemies <- sortEnemiesByPriority m ;;
  let '(w, m, processed) :=
    batchLoop deltaTime startTime w m 0
      (skipn (currentBatchIndex m) sortedEnemies) in
  let m :=
    set_currentBatchIndex
      ((currentBatchIndex m + processed)
         mod Nat.max 1 (List.length sortedEnemies))%nat m in
  Some (w, m, processed).

Definition update (w : World) (m : t) (deltaTime : R) : Completion (World * t) :=
  let '(startTime, w) := readClock w in
  match updateBatch w m deltaTime startTime with
  | None => Throw (w, m)
  | Some (w, m, _) =>
      match updateGroupAI w m with
      | Throw s => Throw s
      | Normal (w, m) =>
          let '(now, w) := readClock w in
          Normal (w, set_stats (now - startTime) (JSMap.size (enemies m)) m)
      end
  end.

End Host.

(** [getStats()]. *)
Record Stats : Type := mkStats {
  stats_totalEnemies : nat;
  stats_activeCount : nat;
  stats_updateTime : R
}.

Definition getStats (m : t) : Stats :=
  mkStats (JSMap.size (enemies m)) (activeCount m) (updateTime m).

Definition clear (m : t) : t :=
  mk [] (perception m) (coverSystem m) (playerPosition m) (timeBudget m)
    (batchSize m) 0 (updateTime m) (activeCount m).

End AIManager.

(** ** Vocabulary of the statements *)

(** What [takeDamage] takes off the armor. *)
Definition absorbed (a : AICharacter.t) (d : R) : R :=
  if JS.gtb (AICharacter.armor a) 0
  then Rmin (d * 0.5) (AICharacter.armor a) else 0.

(** The agent after the armor and health writes of [takeDamage], before the
    death test. *)
Definition afterMitigation (a : AICharacter.t) (d : R) : AICharacter.t :=
  let a1 :=
    if JS.gtb (AICharacter.armor a) 0
    then AICharacter.set_armor (AICharacter.armor a - absorbed a d) a else a in
  AICharacter.set_health (Rmax 0 (AICharacter.health a - (d - absorbed a d))) a1.

(** Calls made on an agent from outside: damage and respawn. *)
Inductive AgentCall : Type :=
| TakeDamage (amount : R)
| Respawn (p : Vector3).

Definition call (a : AICharacter.t) (c : AgentCall) : AICharacter.t :=
  match c with
  | TakeDamage amount => AICharacter.takeDamage amount a
  | Respawn p => AICharacter.respawn p a
  end.

Definition calls (a : AICharacter.t) (cs : list AgentCall) : AICharacter.t :=
  fold_left call cs a.

Definition nonNegativeDamage (c : AgentCall) : Prop :=
  match c with
  | TakeDamage amount => 0 <= amount
  | Respawn _ => True
  end.

Definition healthArmorInRange (a : AICharacter.t) : Prop :=
  0 <= AICharacter.health a <= AICharacter.maxHealth a
  /\ 0 <= AICharacter.armor a.

(** The state that the physical condition of an agent calls for. *)
Definition stateOfCondition (a : AICharacter.t) : AIState :=
  let speed := length (AICharacter.velocity a) in
  if AICharacter.isInCover a then COVER
  else if match AICharacter.perception a with
          | Some p => hasLineOfSight p
          | None => false
          end then COMBAT
  else if JS.gtb speed 3 then CHASE
  else if JS.gtb speed 0.1 then PATROL
  else IDLE.

(** The number of agents that the frame starting in [(w, m)] hands to
    [updateEnemy]: none when the sort raises. *)
Definition processedInTick (performance_now : nat -> R)
    (behaviorTree_update :
       AIManager.BehaviorContext -> R -> AICharacter.t -> AICharacter.t)
    (w : AIManager.World) (m : AIManager.t) (deltaTime : R) : nat :=
  let '(startTime, w) := AIManager.readClock performance_now w in
  match
    AIManager.updateBatch performance_now behaviorTree_update w m deltaTime
      startTime
  with
  | Some (_, _, processed) => processed
  | None => 0%nat
  end.

(** What a frame leaves alone in the manager: its configuration, the cursor
    (written once, after the batch loop) and the registry's keys. *)
Definition sameSchedule (m m' : AIManager.t) : Prop :=
  AIManager.batchSize m' = AIManager.batchSize m
  /\ AIManager.timeBudget m' = AIManager.timeBudget m
  /\ AIManager.currentBatchIndex m' = AIManager.currentBatchIndex m
  /\ AIManager.playerPosition m' = AIManager.playerPosition m
  /\ map fst (AIManager.enemies m') = map fst (AIManager.enemies m).

(** ** Scenarios *)

Module Scenario.

(** A perception result with line of sight to a target 5 units ahead. *)
Definition sighting : PerceptionResult :=
  mkPerceptionResult true (Some zero) 5 0 true 1 false None 0 0 0.

(** Two live grunts 5 units apart: the scout sees the player, the fighter is
    in COMBAT. *)
Definition scout : AICharacter.t :=
  AICharacter.set_perception (Some sighting)
    (AICharacter.set_position (mkVector3 3 0 4)
       (AICharacter.new "scout" "Scout" DEFAULT_AI_CONFIG)).

Definition fighter : AICharacter.t :=
  AICharacter.transitionTo COMBAT
    (AICharacter.new "fighter" "Fighter" DEFAULT_AI_CONFIG).

Definition squad : AIManager.t :=
  AIManager.registerEnemy fighter
    (AIManager.registerEnemy scout AIManager.new).

(** Two high covers at the same place, 3 units from the agent on the way to
    the threat, of quality 0.5 and 0.8. *)
Definition coverA : CoverSpot.t :=
  CoverSpot.mk "cover_a" (mkVector3 0 0 3) 0.5 HIGH [] 1.8 false None.

Definition coverB : CoverSpot.t :=
  CoverSpot.mk "cover_b" (mkVector3 0 0 3) 0.8 HIGH [] 1.8 false None.

Definition covers : CoverSystem.t :=
  CoverSystem.addCoverSpot coverB (CoverSystem.addCoverSpot coverA CoverSystem.new).

Definition threat : Vector3 := mkVector3 0 0 10.

(** A grunt at the origin that occupies [coverA]. *)
Definition occupant : AICharacter.t :=
  AICharacter.set_isInCover true
    (AICharacter.set_coverState (mkCoverState (Some coverA) None false 0 0.3)
       (AICharacter.new "grunt" "Grunt" DEFAULT_AI_CONFIG)).

(** A sentry at the origin and a straggler 50 units away, both registered;
    the player stands 10 units in front of the sentry, 40 units from the
    straggler: in the straggler's simplified-update range, out of its view
    distance and earshot. *)
Definition sentry : AICharacter.t :=
  AICharacter.new "sentry" "Sentry" DEFAULT_AI_CONFIG.

Definition straggler : AICharacter.t :=
  AICharacter.set_position (mkVector3 0 0 50)
    (AICharacter.new "straggler" "Straggler" DEFAULT_AI_CONFIG).

Definition outpost : AIManager.t :=
  AIManager.updatePlayerPosition (mkVector3 0 0 10)
    (AIManager.registerEnemy straggler
       (AIManager.registerEnemy sentry AIManager.new)).

(** A grunt with 100 health and 20 armor. *)
Definition armored : AICharacter.t :=
  AICharacter.new "armored" "Armored"
    (mkAIConfig "grunt" 100 20 10 20 (PI / 2) 30).

(** Fifty registered grunts, [enemy_0] to [enemy_49]. *)
Definition enemyName (n : nat) : string :=
  "enemy_" ++ NilEmpty.string_of_uint (Nat.to_uint n).

Definition horde : AIManager.t :=
  fold_left
    (fun m n =>
       AIManager.registerEnemy
         (AICharacter.new (enemyName n) "Grunt" DEFAULT_AI_CONFIG) m)
    (seq 0 MAX_ACTIVE_ENEMIES) AIManager.new.

(** A perception configuration with a closed primary cone and a peripheral
    cone of half-angle [PI / 2]. *)
Definition peripheralOnly : PerceptionConfig :=
  mkPerceptionConfig 30 0 PI 20 30 100 3000.

(** An idle grunt at the origin, and the scout's squad with it in place
    of the fighter. *)
Definition recruit : AICharacter.t :=
  AICharacter.new "recruit" "Recruit" DEFAULT_AI_CONFIG.

Definition patrolSquad : AIManager.t :=
  AIManager.registerEnemy recruit
    (AIManager.registerEnemy scout AIManager.new).

(** A registry with the sentry alone. *)
Definition post : AIManager.t :=
  AIManager.registerEnemy sentry AIManager.new.

End Scenario.

(** ** Further vocabulary *)

(** Calls that reach an agent whether it lives or not. *)
Inductive LifeCall : Type :=
| Damage (amount : R)
| Frame (deltaTime : R).

Definition lifeCall (a : AICharacter.t) (c : LifeCall) : AICharacter.t :=
  match c with
  | Damage amount => AICharacter.takeDamage amount a
  | Frame deltaTime => AICharacter.update deltaTime a
  end.

(** The speed that [moveToward] uses: [speed || 2.0]. *)
Definition moveSpeedOf (speed : option R) : R :=
  match speed with
  | Some s => if JS.eqb s 0 then 2 else s
  | None => 2
  end.

(** Cover bookkeeping that hangs together: an agent in cover has a current
    cover, an agent on its way has a target cover. *)
Definition coverConsistent (a : AICharacter.t) : Prop :=
  (AICharacter.isInCover a = true ->
   currentCover (AICharacter.coverState a) <> None)
  /\ (isMovingToCover (AICharacter.coverState a) = true ->
      targetCover (AICharacter.coverState a) <> None).

(** The test [needsCover] of [CoverSystem.update]. *)
Definition needsCover (enemy : AICharacter.t) (perception : PerceptionResult)
    : bool :=
  isTakingDamage perception
  || JS.ltb (distanceToTarget perception) 15
  || (JS.ltb (AICharacter.health enemy) (AICharacter.maxHealth enemy * 0.5)
      && hasLineOfSight perception).

(** A cover spot that [getAvailableCovers] accepts for an agent. *)
Definition coverAvailable (enemy : AICharacter.t) (cover : CoverSpot.t) : Prop :=
  distanceTo (AICharacter.position enemy) (CoverSpot.position cover) < 30
  /\ match CoverSpot.health cover with
     | None => True
     | Some h => h > 0
     end.

(** Some live registered agent holds a perception result with line of
    sight. *)
Definition someoneSeesTarget (l : JSMap.t AICharacter.t) : bool :=
  existsb
    (fun e =>
       AICharacter.isAlive (snd e)
       && match AICharacter.perception (snd e) with
          | Some p => hasLineOfSight p
          | None => false
          end) l.

(** A patrolling grunt with three waypoints, standing on the second. *)
Definition patroller : AICharacter.t :=
  let a := AICharacter.new "patroller" "Patroller" DEFAULT_AI_CONFIG in
  AICharacter.mk (AICharacter.id a) (AICharacter.name a) (AICharacter.type a)
    (mkVector3 10 0 0) (AICharacter.rotation a) (AICharacter.velocity a)
    (AICharacter.health a) (AICharacter.maxHealth a) (AICharacter.armor a)
    (AICharacter.damage a) PATROL true false false false false None
    (AICharacter.perceptionConfig a) false (AICharacter.coverState a)
    (AICharacter.targetPosition a) None
    [mkVector3 0 0 0; mkVector3 10 0 0; mkVector3 10 0 10] 1.

(** A destructible cover shot to pieces, and a grunt that still occupies
    it. *)
Definition rubble : CoverSpot.t :=
  CoverSpot.mk "cover_rubble" (mkVector3 0 0 1) 0.8 DYNAMIC [] 1 true (Some 0).

Definition rubbleOccupant : AICharacter.t :=
  AICharacter.set_isInCover true
    (AICharacter.set_coverState (mkCoverState (Some rubble) None false 0 0.3)
       (AICharacter.new "grunt" "Grunt" DEFAULT_AI_CONFIG)).

(** What the group-alert pass leaves alone in every agent. *)
Definition sameVitals (e e' : AICharacter.t) : Prop :=
  AICharacter.id e' = AICharacter.id e
  /\ AICharacter.type e' = AICharacter.type e
  /\ AICharacter.position e' = AICharacter.position e
  /\ AICharacter.health e' = AICharacter.health e
  /\ AICharacter.maxHealth e' = AICharacter.maxHealth e
  /\ AICharacter.armor e' = AICharacter.armor e
  /\ AICharacter.isAlive e' = AICharacter.isAlive e
  /\ AICharacter.perception e' = AICharacter.perception e.

(** Registry entries before and after a pass: same key, vitals kept. *)
Definition entryKept (a b : string * AICharacter.t) : Prop :=
  fst b = fst a /\ sameVitals (snd a) (snd b).

(** A live grunt 60 units from the player, running at speed 3. *)
Definition distantRunner : AICharacter.t :=
  AICharacter.set_velocity (mkVector3 3 0 0)
    (AICharacter.set_position (mkVector3 0 0 60)
       (AICharacter.new "runner" "Runner" DEFAULT_AI_CONFIG)).

(** What one [alertNearbyEnemies(source)] does to a registry entry: key and
    vitals are kept, and the agent is left as it was when it is the source,
    dead, or 30 units or more from the source. *)
Definition alertOutcome (source : AICharacter.t)
    (a b : string * AICharacter.t) : Prop :=
  entryKept a b
  /\ (AICharacter.id (snd a) = AICharacter.id source
      \/ AICharacter.isAlive (snd a) = false
      \/ 30 <= distanceTo (AICharacter.position (snd a))
                 (AICharacter.position source) ->
      snd b = snd a).


(** * Properties *)

(** ** Comparisons *)

Lemma ltb_true (a b : R) : JS.ltb a b = true <-> a < b.
Proof. unfold JS.ltb. destruct (Rlt_dec a b); split; intros; try easy. Qed.

Lemma ltb_false (a b : R) : JS.ltb a b = false <-> b <= a.
Proof.
  unfold JS.ltb. destruct (Rlt_dec a b); split; intros; try easy; lra.
Qed.

Lemma leb_true (a b : R) : JS.leb a b = true <-> a <= b.
Proof. unfold JS.leb. destruct (Rle_dec a b); split; intros; try easy. Qed.

Lemma leb_false (a b : R) : JS.leb a b = false <-> b < a.
Proof.
  unfold JS.leb. destruct (Rle_dec a b); split; intros; try easy; lra.
Qed.

Lemma gtb_true (a b : R) : JS.gtb a b = true <-> a > b.
Proof. unfold JS.gtb. rewrite ltb_true. lra. Qed.

Lemma gtb_false (a b : R) : JS.gtb a b = false <-> a <= b.
Proof. unfold JS.gtb. rewrite ltb_false. lra. Qed.

Lemma geb_true (a b : R) : JS.geb a b = true <-> a >= b.
Proof. unfold JS.geb. rewrite leb_true. lra. Qed.

Lemma geb_false (a b : R) : JS.geb a b = false <-> a < b.
Proof. unfold JS.geb. rewrite leb_false. lra. Qed.

Lemma eqb_true (a b : R) : JS.eqb a b = true <-> a = b.
Proof. unfold JS.eqb. destruct (Req_dec_T a b); split; intros; easy. Qed.

Lemma eqb_false (a b : R) : JS.eqb a b = false <-> a <> b.
Proof. unfold JS.eqb. destruct (Req_dec_T a b); split; intros; easy. Qed.

(** Decide one comparison of the goal and keep the fact it yields. *)
Ltac cmp_case c :=
  let E := fresh "E" in
  destruct c eqn:E;
  [ first [ apply ltb_true in E | apply leb_true in E | apply gtb_true in E
          | apply geb_true in E | apply eqb_true in E ]
  | first [ apply ltb_false in E | apply leb_false in E | apply gtb_false in E
          | apply geb_false in E | apply eqb_false in E ] ].

(** ** The agent: damage, death, respawn *)

Section AgentFacts.
Import AICharacter.

Lemma takeDamage_alive (a : t) (d : R) :
  isAlive a = true ->
  takeDamage d a =
    if JS.leb (health (afterMitigation a d)) 0
    then die (afterMitigation a d) else afterMitigation a d.
Proof.
  intros Ha. unfold takeDamage, afterMitigation, absorbed. rewrite Ha. simpl.
  destruct (JS.gtb (armor a) 0); simpl; try reflexivity.
  replace (health a - (d - 0)) with (health a - d) by lra. reflexivity.
Qed.

Lemma afterMitigation_armor (a : t) (d : R) :
  armor (afterMitigation a d) = armor a - absorbed a d.
Proof.
  unfold afterMitigation, absorbed.
  destruct (JS.gtb (armor a) 0); simpl; lra.
Qed.

Lemma afterMitigation_health (a : t) (d : R) :
  health (afterMitigation a d) = Rmax 0 (health a - (d - absorbed a d)).
Proof. unfold afterMitigation. destruct (JS.gtb (armor a) 0); reflexivity. Qed.

Lemma Rmax0_nonneg (r : R) : 0 <= Rmax 0 r.
Proof. apply Rmax_l. Qed.

Lemma absorbed_bounds (a : t) (d : R) :
  0 <= d -> 0 <= armor a -> 0 <= absorbed a d <= armor a /\ absorbed a d <= d.
Proof.
  intros Hd Harm. unfold absorbed.
  cmp_case (JS.gtb (armor a) 0); [|lra].
  unfold Rmin. destruct (Rle_dec (d * 0.5) (armor a)); lra.
Qed.

(** C3.  On a live agent [takeDamage d] takes [min (d * 0.5) armor] off the
    armor when the armor is positive, subtracts the rest of [d] from the
    health with a floor of 0, and runs [die] (not alive, DEAD, velocity zero,
    attack flag off) exactly when the health is then 0; otherwise nothing
    else changes.  With armor 20 and [d = 30] the armor loses 15 and the
    health 15. *)
Theorem takeDamage_mitigation_order (a : t) (d : R) :
  isAlive a = true -> 0 <= d ->
  let a' := takeDamage d a in
  armor a' = armor a - (if JS.gtb (armor a) 0 then Rmin (d * 0.5) (armor a) else 0)
  /\ health a' =
       Rmax 0 (health a -
               (d - (if JS.gtb (armor a) 0 then Rmin (d * 0.5) (armor a) else 0)))
  /\ (health a' = 0 ->
        a' = die (afterMitigation a d)
        /\ isAlive a' = false /\ state a' = DEAD /\ velocity a' = zero
        /\ isAttacking a' = false)
  /\ (health a' <> 0 ->
        a' = afterMitigation a d
        /\ isAlive a' = true /\ state a' = state a /\ velocity a' = velocity a
        /\ isAttacking a' = isAttacking a)
  /\ (armor a = 20 -> d = 30 ->
        armor a' = armor a - 15 /\ health a' = Rmax 0 (health a - 15)
        /\ (15 <= health a -> health a' = health a - 15)).
Proof.
  intros Ha Hd a'. subst a'. rewrite (takeDamage_alive a d Ha).
  pose proof (afterMitigation_armor a d) as HA.
  pose proof (afterMitigation_health a d) as HH.
  fold (absorbed a d).
  assert (Hst : forall b, state (afterMitigation b d) = state b
                          /\ isAlive (afterMitigation b d) = isAlive b
                          /\ velocity (afterMitigation b d) = velocity b
                          /\ isAttacking (afterMitigation b d) = isAttacking b).
  { intros b. unfold afterMitigation. destruct (JS.gtb (armor b) 0); simpl; auto. }
  destruct (Hst a) as (Hs1 & Hs2 & Hs3 & Hs4).
  assert (Hscen : armor a = 20 -> d = 30 -> absorbed a d = 15).
  { intros H20 H30. unfold absorbed. rewrite H20, H30.
    cmp_case (JS.gtb 20 0); [|lra].
    unfold Rmin. destruct (Rle_dec (30 * 0.5) 20); lra. }
  assert (Hscen' : armor a = 20 -> d = 30 ->
            armor (afterMitigation a d) = armor a - 15
            /\ health (afterMitigation a d) = Rmax 0 (health a - 15)
            /\ (15 <= health a -> health (afterMitigation a d) = health a - 15)).
  { intros H20 H30. rewrite HA, HH, (Hscen H20 H30).
    replace (health a - (d - 15)) with (health a - 15) by lra.
    split; [lra|]. split; [reflexivity|].
    intros H15. rewrite Rmax_right; lra. }
  cmp_case (JS.leb (health (afterMitigation a d)) 0).
  - assert (H0 : health (afterMitigation a d) = 0).
    { rewrite HH in *. pose proof (Rmax0_nonneg (health a - (d - absorbed a d))). lra. }
    split; [exact HA|]. split; [exact HH|].
    split; [intros _; repeat split; reflexivity|].
    split; [intros Hne; exfalso; apply Hne; exact H0|].
    exact Hscen'.
  - split; [exact HA|]. split; [exact HH|].
    split; [intros Hz; lra|].
    split; [intros _; repeat split; congruence|].
    exact Hscen'.
Qed.

End AgentFacts.

(** ** The agent: health and armor stay in range *)

Section AgentInvariant.
Import AICharacter.

Lemma takeDamage_in_range (a : t) (d : R) :
  0 <= d -> healthArmorInRange a -> healthArmorInRange (takeDamage d a).
Proof.
  intros Hd [[Hh0 Hh1] Harm]. unfold healthArmorInRange.
  destruct (isAlive a) eqn:Ha.
  - rewrite (takeDamage_alive a d Ha).
    assert (Hm : maxHealth (afterMitigation a d) = maxHealth a).
    { unfold afterMitigation. destruct (JS.gtb (armor a) 0); reflexivity. }
    pose proof (afterMitigation_armor a d) as HA.
    pose proof (afterMitigation_health a d) as HH.
    destruct (absorbed_bounds a d Hd Harm) as [[Hb0 Hb1] Hb2].
    assert (Hr : 0 <= Rmax 0 (health a - (d - absorbed a d)) <= maxHealth a).
    { split; [apply Rmax_l|]. apply Rmax_lub; lra. }
    remember (afterMitigation a d) as b eqn:Hb. clear Hb.
    destruct (JS.leb (health b) 0); simpl; rewrite ?HA, ?HH, ?Hm; lra.
  - unfold takeDamage. rewrite Ha. simpl. lra.
Qed.

Lemma respawn_in_range (a : t) (p : Vector3) :
  healthArmorInRange a -> healthArmorInRange (respawn p a).
Proof. intros [[Hh0 Hh1] Harm]. unfold healthArmorInRange. simpl. lra. Qed.

(** C4.  An agent whose health starts within [0, maxHealth] and whose armor
    starts non-negative keeps both properties through every finite sequence
    of [takeDamage] calls with non-negative amounts and [respawn] calls. *)
Theorem health_armor_invariant (a : t) (cs : list AgentCall) :
  0 <= health a <= maxHealth a -> 0 <= armor a ->
  Forall nonNegativeDamage cs ->
  0 <= health (calls a cs) <= maxHealth (calls a cs) /\ 0 <= armor (calls a cs).
Proof.
  intros Hh Harm Hcs.
  assert (Hinv : healthArmorInRange a) by (split; assumption).
  clear Hh Harm. revert a Hinv.
  induction Hcs as [|c cs Hc _ IH]; intros a Hinv.
  - exact Hinv.
  - unfold calls. simpl. apply IH.
    destruct c as [d|p]; simpl in *.
    + apply takeDamage_in_range; assumption.
    + apply respawn_in_range; assumption.
Qed.

(** [respawn] also leaves [maxHealth] alone, and [takeDamage] does. *)
Lemma calls_maxHealth (a : t) (cs : list AgentCall) :
  maxHealth (calls a cs) = maxHealth a.
Proof.
  revert a. induction cs as [|c cs IH]; intros a; [reflexivity|].
  unfold calls in *. simpl. rewrite IH.
  destruct c as [d|p]; simpl; [|reflexivity].
  destruct (isAlive a) eqn:Ha.
  - rewrite (takeDamage_alive a d Ha).
    assert (Hm : maxHealth (afterMitigation a d) = maxHealth a).
    { unfold afterMitigation. destruct (JS.gtb (armor a) 0); reflexivity. }
    remember (afterMitigation a d) as b eqn:Hb. clear Hb.
    destruct (JS.leb _ _); simpl; exact Hm.
  - unfold takeDamage. rewrite Ha. reflexivity.
Qed.

End AgentInvariant.

(** ** The agent: state transitions *)

Section AgentStates.
Import AICharacter.

Lemma rotateTowardTarget_frame (dt : R) (a : t) :
  velocity (rotateTowardTarget dt a) = velocity a
  /\ isInCover (rotateTowardTarget dt a) = isInCover a
  /\ perception (rotateTowardTarget dt a) = perception a
  /\ isAlive (rotateTowardTarget dt a) = isAlive a.
Proof.
  unfold rotateTowardTarget.
  destruct (JS.eqb _ _); [auto|].
  destruct (JS.ltb _ _); simpl; auto.
Qed.

Lemma updateState_state (a : t) :
  state (updateState a) = stateOfCondition a.
Proof.
  unfold updateState, stateOfCondition. simpl.
  destruct (isInCover a); [reflexivity|].
  destruct (match perception a with Some p => hasLineOfSight p | None => false end);
    [reflexivity|].
  cmp_case (JS.gtb (length (velocity a)) 0.1);
    cmp_case (JS.gtb (length (velocity a)) 3); simpl; try reflexivity.
  lra.
Qed.

Lemma stateOfCondition_range (a : t) :
  stateOfCondition a <> ALERT /\ stateOfCondition a <> RETREAT
  /\ stateOfCondition a <> DEAD.
Proof.
  unfold stateOfCondition.
  destruct (isInCover a); [repeat split; discriminate|].
  destruct (match perception a with Some p => hasLineOfSight p | None => false end);
    [repeat split; discriminate|].
  destruct (JS.gtb _ 3); [repeat split; discriminate|].
  destruct (JS.gtb _ 0.1); repeat split; discriminate.
Qed.

Lemma update_state_alive (dt : R) (a : t) :
  isAlive a = true -> state (update dt a) = stateOfCondition a.
Proof.
  intros Ha. unfold update. rewrite Ha. simpl.
  rewrite updateState_state.
  set (b := set_position _ a).
  destruct (rotateTowardTarget_frame dt b) as (Hv & Hc & Hp & _).
  unfold stateOfCondition. rewrite Hv, Hc, Hp. reflexivity.
Qed.

Lemma transitionTo_frame (s : AIState) (a : t) :
  velocity (transitionTo s a) = velocity a
  /\ isInCover (transitionTo s a) = isInCover a
  /\ perception (transitionTo s a) = perception a
  /\ isAlive (transitionTo s a) = isAlive a.
Proof.
  unfold transitionTo. destruct (AIState_eqb (state a) s); [auto|].
  destruct s; simpl; auto.
  unfold startPatrol. simpl. destruct (patrolPoints a); simpl; auto.
Qed.

(** C10.  [update] on a live agent sets the state to COVER when the in-cover
    flag is set, else COMBAT when the stored perception has line of sight,
    else CHASE when the speed exceeds 3, else PATROL when it exceeds 0.1,
    else IDLE; so the state is then never ALERT, RETREAT or DEAD, and a state
    set by an earlier [transitionTo] has no influence on it. *)
Theorem update_recomputes_state (dt : R) (a : t) :
  isAlive a = true ->
  state (update dt a) =
    (if isInCover a then COVER
     else if match perception a with
             | Some p => hasLineOfSight p
             | None => false
             end then COMBAT
     else if JS.gtb (length (velocity a)) 3 then CHASE
     else if JS.gtb (length (velocity a)) 0.1 then PATROL
     else IDLE)
  /\ state (update dt a) <> ALERT
  /\ state (update dt a) <> RETREAT
  /\ state (update dt a) <> DEAD
  /\ forall s, state (update dt (transitionTo s a)) = state (update dt a).
Proof.
  intros Ha. rewrite (update_state_alive dt a Ha).
  split; [reflexivity|].
  destruct (stateOfCondition_range a) as (H1 & H2 & H3).
  repeat (split; [assumption|]).
  intros s. destruct (transitionTo_frame s a) as (Hv & Hc & Hp & Hal).
  rewrite update_state_alive by congruence.
  unfold stateOfCondition. rewrite Hv, Hc, Hp. reflexivity.
Qed.

(** C9 (what the code does).  [transitionTo] has no liveness test: on a dead
    agent (state DEAD, [isAlive] false) a transition to ALERT is carried
    out, and a transition to COMBAT also runs its entry action. *)
Theorem transitionTo_dead_agent_not_rejected :
  let a := die (new "e1" "grunt" DEFAULT_AI_CONFIG) in
  isAlive a = false /\ state a = DEAD
  /\ state (transitionTo ALERT a) = ALERT
  /\ isAlive (transitionTo ALERT a) = false
  /\ state (transitionTo COMBAT a) = COMBAT
  /\ isAttacking a = false
  /\ isAttacking (transitionTo COMBAT a) = true.
Proof. simpl. repeat split. Qed.

End AgentStates.

(** ** Vectors *)

Lemma lengthSq_nonneg (v : Vector3) : 0 <= lengthSq v.
Proof. unfold lengthSq. nra. Qed.

Lemma length_nonneg (v : Vector3) : 0 <= length v.
Proof. apply sqrt_pos. Qed.

Lemma lengthSq_zero (v : Vector3) : lengthSq v = 0 -> v = zero.
Proof.
  destruct v as [a b c]. unfold lengthSq, zero. simpl. intros H.
  assert (a = 0) by nra. assert (b = 0) by nra. assert (c = 0) by nra.
  subst. reflexivity.
Qed.

Lemma length_zero (v : Vector3) : length v = 0 -> lengthSq v = 0.
Proof.
  unfold length. intros H. apply sqrt_eq_0 in H; [exact H|apply lengthSq_nonneg].
Qed.

Lemma length_sqr (v : Vector3) : length v * length v = lengthSq v.
Proof. unfold length. apply sqrt_sqrt, lengthSq_nonneg. Qed.

Lemma normalize_degenerate (v : Vector3) :
  length v = 0 -> normalize v = zero.
Proof.
  intros H. pose proof (lengthSq_zero v (length_zero v H)) as Hv. subst v.
  unfold normalize, multiplyScalar, zero. simpl. f_equal; lra.
Qed.

Lemma normalize_unit (v : Vector3) :
  length v <> 0 -> lengthSq (normalize v) = 1.
Proof.
  intros H. unfold normalize.
  destruct (JS.eqb (length v) 0) eqn:E; [apply eqb_true in E; contradiction|].
  pose proof (length_sqr v) as Hs. unfold lengthSq in *. simpl.
  set (l := length v) in *.
  replace (x v * (1 / l) * (x v * (1 / l)) + y v * (1 / l) * (y v * (1 / l))
           + z v * (1 / l) * (z v * (1 / l)))
    with ((x v * x v + y v * y v + z v * z v) / (l * l)) by (field; exact H).
  rewrite <- Hs. field. exact H.
Qed.

Lemma dot_unit_bounds (a b : Vector3) :
  lengthSq a = 1 -> lengthSq b = 1 -> -1 <= dot a b <= 1.
Proof.
  unfold lengthSq, dot. intros Ha Hb.
  pose proof (Rle_0_sqr (x a - x b)). pose proof (Rle_0_sqr (y a - y b)).
  pose proof (Rle_0_sqr (z a - z b)). pose proof (Rle_0_sqr (x a + x b)).
  pose proof (Rle_0_sqr (y a + y b)). pose proof (Rle_0_sqr (z a + z b)).
  unfold Rsqr in *. split; nra.
Qed.

Lemma angleTo_bounds (a b : Vector3) : 0 <= angleTo a b <= PI.
Proof.
  unfold angleTo. destruct (JS.eqb _ 0).
  - pose proof PI_RGT_0. lra.
  - apply acos_bound.
Qed.

(** For a unit vector and a normalized one, the dot product is the cosine of
    the angle that [angleTo] returns (also in the degenerate case, where the
    normalized vector is zero and the angle is [PI / 2]). *)
Lemma dot_cos_angleTo (f v : Vector3) :
  lengthSq f = 1 -> dot f (normalize v) = cos (angleTo f (normalize v)).
Proof.
  intros Hf. destruct (Req_dec_T (length v) 0) as [H0|Hn].
  - rewrite (normalize_degenerate v H0). unfold angleTo.
    replace (lengthSq zero) with 0 by (unfold lengthSq, zero; simpl; lra).
    rewrite Rmult_0_r, sqrt_0.
    destruct (JS.eqb 0 0) eqn:E; [|apply eqb_false in E; lra].
    rewrite cos_PI2. unfold dot, zero. simpl. lra.
  - pose proof (normalize_unit v Hn) as Hu.
    pose proof (dot_unit_bounds f (normalize v) Hf Hu) as Hb.
    unfold angleTo. rewrite Hf, Hu, Rmult_1_r, sqrt_1.
    destruct (JS.eqb 1 0) eqn:E; [apply eqb_true in E; lra|].
    replace (dot f (normalize v) / 1) with (dot f (normalize v)) by field.
    unfold clamp. rewrite Rmin_right by lra. rewrite Rmax_right by lra.
    rewrite cos_acos by lra. reflexivity.
Qed.

Lemma forwardOfEuler_unit (e : Euler) : lengthSq (forwardOfEuler e) = 1.
Proof.
  unfold lengthSq, forwardOfEuler. simpl.
  pose proof (sin2_cos2 (ex e)) as H1. pose proof (sin2_cos2 (ey e)) as H2.
  unfold Rsqr in *. nra.
Qed.

Lemma normalize_explicit (v : Vector3) (r : R) :
  0 < r -> length v = r -> normalize v = multiplyScalar v (1 / r).
Proof.
  intros Hr Hl. unfold normalize. rewrite Hl.
  destruct (JS.eqb r 0) eqn:E; [apply eqb_true in E; lra|reflexivity].
Qed.

Lemma angleTo_unit (f v : Vector3) :
  lengthSq f = 1 -> lengthSq v = 1 -> angleTo f v = acos (dot f v).
Proof.
  intros Hf Hv. pose proof (dot_unit_bounds f v Hf Hv) as Hb.
  unfold angleTo. rewrite Hf, Hv, Rmult_1_r, sqrt_1.
  destruct (JS.eqb 1 0) eqn:E; [apply eqb_true in E; lra|].
  replace (dot f v / 1) with (dot f v) by field.
  unfold clamp. rewrite Rmin_right by lra. rewrite Rmax_right by lra.
  reflexivity.
Qed.

(** ** Perception: the vision cone *)

Section Vision.
Import PerceptionSystem.

Lemma checkVision_far (p f t : Vector3) (config : PerceptionConfig) :
  distanceTo t p > viewDistance config -> checkVision p f t config = false.
Proof.
  intros H. unfold checkVision. fold (distanceTo t p).
  cmp_case (JS.gtb (distanceTo t p) (viewDistance config)); [reflexivity|lra].
Qed.

Lemma checkVision_near (p f t : Vector3) (config : PerceptionConfig) :
  distanceTo t p <= viewDistance config ->
  (checkVision p f t config = true <->
     dot f (normalize (subVectors t p)) >= cos (viewAngle config / 2)
     \/ (dot f (normalize (subVectors t p)) >= cos (peripheralAngle config / 2)
         /\ distanceTo t p < viewDistance config * 0.5)).
Proof.
  intros H. unfold checkVision. fold (distanceTo t p).
  cmp_case (JS.gtb (distanceTo t p) (viewDistance config)); [lra|].
  cmp_case (JS.geb (dot f (normalize (subVectors t p))) (cos (viewAngle config / 2))).
  { split; [intros _; left; lra|reflexivity]. }
  cmp_case (JS.geb (dot f (normalize (subVectors t p)))
              (cos (peripheralAngle config / 2))).
  - rewrite ltb_true. split; [intros Hlt; right; split; [lra|exact Hlt]|].
    intros [Hc|[_ Hc]]; [lra|exact Hc].
  - split; [discriminate|]. intros [Hc|[Hc _]]; lra.
Qed.

(** C5.  The vision check answers false beyond [viewDistance]; within it, it
    answers true exactly when the dot product of the forward vector with the
    normalized direction to the target reaches [cos (viewAngle / 2)], or
    reaches [cos (peripheralAngle / 2)] at a distance below
    [viewDistance * 0.5].  With a unit forward vector (the one an agent's
    rotation gives): a target at angle 0 within [viewDistance] is seen, a
    target at an angle beyond both half-angles is not, and a target outside
    the primary cone at a distance of [viewDistance * 0.5] or more is not. *)
Theorem checkVision_cone_rule
    (enemyPosition enemyForward targetPosition : Vector3)
    (config : PerceptionConfig) :
  let distance := distanceTo targetPosition enemyPosition in
  let direction := normalize (subVectors targetPosition enemyPosition) in
  let d := dot enemyForward direction in
  let visible := checkVision enemyPosition enemyForward targetPosition config in
  (distance > viewDistance config -> visible = false)
  /\ (distance <= viewDistance config ->
      (visible = true <->
         d >= cos (viewAngle config / 2)
         \/ (d >= cos (peripheralAngle config / 2)
             /\ distance < viewDistance config * 0.5)))
  /\ (lengthSq enemyForward = 1 ->
      angleTo enemyForward direction = 0 ->
      distance <= viewDistance config -> visible = true)
  /\ (lengthSq enemyForward = 1 ->
      0 <= viewAngle config -> 0 <= peripheralAngle config ->
      angleTo enemyForward direction > viewAngle config / 2 ->
      angleTo enemyForward direction > peripheralAngle config / 2 ->
      visible = false)
  /\ (d < cos (viewAngle config / 2) ->
      d >= cos (peripheralAngle config / 2) ->
      distance >= viewDistance config * 0.5 -> visible = false).
Proof.
  intros distance direction d visible.
  split; [apply checkVision_far|].
  split; [apply checkVision_near|].
  assert (Hfalse : d < cos (viewAngle config / 2) ->
            (d < cos (peripheralAngle config / 2)
             \/ distance >= viewDistance config * 0.5) -> visible = false).
  { intros H1 H2. destruct (Rle_dec distance (viewDistance config)) as [Hd|Hd].
    - destruct visible eqn:E; [|reflexivity].
      apply (checkVision_near _ _ _ _ Hd) in E.
      fold direction d distance in E. destruct E as [E|[E1 E2]]; lra.
    - apply checkVision_far. fold distance. lra. }
  split; [|split].
  - intros Hf Hang Hd.
    apply (checkVision_near _ _ _ _ Hd). left. fold direction d.
    unfold d, direction. rewrite (dot_cos_angleTo _ _ Hf).
    fold direction. rewrite Hang, cos_0.
    pose proof (COS_bound (viewAngle config / 2)). lra.
  - intros Hf Hva Hpa H1 H2.
    pose proof (angleTo_bounds enemyForward direction) as [Hb0 Hb1].
    assert (Hd : d = cos (angleTo enemyForward direction)).
    { unfold d, direction. apply dot_cos_angleTo. exact Hf. }
    apply Hfalse.
    + rewrite Hd. apply cos_decreasing_1; lra.
    + left. rewrite Hd. apply cos_decreasing_1; lra.
  - intros H1 _ H3. apply Hfalse; [exact H1|right; exact H3].
Qed.

(** The forward vector that [update] hands to [checkVision] is a unit
    vector, whatever the agent's rotation. *)
Lemma getForwardDirection_unit (a : AICharacter.t) :
  lengthSq (AICharacter.getForwardDirection a) = 1.
Proof. apply forwardOfEuler_unit. Qed.

End Vision.

(** ** Stable descending sort *)

Section SortFacts.
Context {A : Type} (key : A -> R).

Lemma insert_desc_perm (a : A) (l : list A) :
  Permutation (a :: l) (insert_desc key a l).
Proof.
  induction l as [|b l IH]; simpl; [apply Permutation_refl|].
  destruct (JS.ltb (key a) (key b)); [|apply Permutation_refl].
  eapply perm_trans; [apply perm_swap|]. apply perm_skip, IH.
Qed.

Lemma sort_desc_perm (l : list A) : Permutation l (sort_desc key l).
Proof.
  induction l as [|a l IH]; simpl; [apply perm_nil|].
  eapply perm_trans; [apply perm_skip, IH|]. apply insert_desc_perm.
Qed.

Lemma insert_desc_sorted (a : A) (l : list A) :
  StronglySorted (descending key) l -> StronglySorted (descending key) (insert_desc key a l).
Proof.
  induction 1 as [|b l Hs IH Hb]; simpl.
  - constructor; constructor.
  - cmp_case (JS.ltb (key a) (key b)).
    + constructor; [exact IH|].
      rewrite Forall_forall in *. intros c Hc.
      apply Permutation_in with (l' := a :: l) in Hc;
        [|apply Permutation_sym, insert_desc_perm].
      destruct Hc as [<-|Hc]; [unfold descending; lra|apply Hb, Hc].
    + constructor; [constructor; assumption|].
      constructor; [unfold descending; lra|].
      rewrite Forall_forall in *. intros c Hc.
      specialize (Hb c Hc). unfold descending in *. lra.
Qed.

Lemma sort_desc_sorted (l : list A) : StronglySorted (descending key) (sort_desc key l).
Proof.
  induction l as [|a l IH]; simpl; [constructor|].
  apply insert_desc_sorted, IH.
Qed.

(** Stability: elements of equal key keep their relative order. *)
Lemma insert_desc_stable (p : R) (a : A) (l : list A) :
  filter (fun e => JS.eqb (key e) p) (insert_desc key a l) =
  filter (fun e => JS.eqb (key e) p) (a :: l).
Proof.
  induction l as [|b l IH]; [reflexivity|].
  simpl insert_desc. cmp_case (JS.ltb (key a) (key b)); [|reflexivity].
  simpl in *. rewrite IH.
  cmp_case (JS.eqb (key a) p); cmp_case (JS.eqb (key b) p);
    try reflexivity.
  lra.
Qed.

Lemma sort_desc_stable (p : R) (l : list A) :
  filter (fun e => JS.eqb (key e) p) (sort_desc key l) =
  filter (fun e => JS.eqb (key e) p) l.
Proof.
  induction l as [|a l IH]; [reflexivity|].
  simpl sort_desc. rewrite insert_desc_stable. simpl. rewrite IH. reflexivity.
Qed.

Lemma sort_desc_length (l : list A) :
  List.length (sort_desc key l) = List.length l.
Proof. symmetry. apply Permutation_length, sort_desc_perm. Qed.

End SortFacts.

(** ** Sorting with a comparator that may raise *)

Section SortEFacts.
Context {A : Type}.

(** With a key that never raises, the sort is the stable descending sort. *)
Lemma insert_descE_total (k : A -> R) (a : A) (l : list A) :
  insert_descE (fun x => Some (k x)) a l = Some (insert_desc k a l).
Proof.
  induction l as [|b l IH]; simpl; [reflexivity|].
  destruct (JS.ltb (k a) (k b)); [|reflexivity].
  rewrite IH. reflexivity.
Qed.

Lemma sort_descE_total (k : A -> R) (l : list A) :
  sort_descE (fun x => Some (k x)) l = Some (sort_desc k l).
Proof.
  induction l as [|a l IH]; simpl; [reflexivity|].
  rewrite IH. simpl. apply insert_descE_total.
Qed.

Lemma sort_descE_length (key : A -> option R) (l s : list A) :
  sort_descE key l = Some s -> List.length s = List.length l.
Proof.
  revert s. induction l as [|a l IH]; simpl; intros s H.
  - inversion H. reflexivity.
  - destruct (sort_descE key l) as [s0|]; [|discriminate]. simpl in H.
    rewrite <- (IH s0 eq_refl). clear IH.
    revert s H. induction s0 as [|b s0 IHs]; simpl; intros s H.
    + inversion H. reflexivity.
    + destruct (key a) as [ka|]; [|discriminate]. simpl in H.
      destruct (key b) as [kb|]; [|discriminate]. simpl in H.
      destruct (JS.ltb ka kb).
      * destruct (insert_descE key a s0) as [s1|]; [|discriminate].
        simpl in H. inversion H. simpl. rewrite (IHs s1 eq_refl). reflexivity.
      * inversion H. reflexivity.
Qed.

(** With a key that always raises, the sort returns lists of at most one
    element as they are and raises on every longer list. *)
Lemma sort_descE_raising (key : A -> option R) (l : list A) :
  (forall a, key a = None) ->
  sort_descE key l = if (List.length l <=? 1)%nat then Some l else None.
Proof.
  intros Hk. destruct l as [|a [|b l]]; simpl; try reflexivity.
  destruct (sort_descE key l) as [s|]; simpl; [|reflexivity].
  destruct (insert_descE key b s) as [[|c s']|] eqn:E; simpl; try reflexivity.
  - destruct s; simpl in E; [discriminate|].
    rewrite (Hk b) in E. discriminate.
  - rewrite (Hk a). reflexivity.
Qed.

End SortEFacts.

(** ** The scheduler: priority *)

Section Priority.
Import AIManager.

Lemma getPriority_raises (m : t) (enemy : AICharacter.t) :
  getPriority m enemy = None.
Proof. reflexivity. Qed.

Lemma sortEnemiesByPriority_result (m : t) :
  sortEnemiesByPriority m
  = if (JSMap.size (enemies m) <=? 1)%nat then Some (enemies m) else None.
Proof.
  unfold sortEnemiesByPriority, JSMap.size. apply sort_descE_raising.
  intros e. apply getPriority_raises.
Qed.

(** C6 (what the code does).  [getPriority] computes no score: for every
    manager and agent it raises at its first read of the enum, for instance
    for the fighter in COMBAT at the player's position, where the claim
    gives 3 + 1.  So no order by score exists: [sortEnemiesByPriority]
    raises on every registry of two or more agents and returns a smaller
    registry as it is, and with two agents the batch loop of [update], which
    would walk the sorted agents, is not reached. *)
Theorem getPriority_raises_TypeError :
  (forall (m : t) (enemy : AICharacter.t), getPriority m enemy = None)
  /\ AICharacter.state Scenario.fighter = COMBAT
  /\ getPriority Scenario.squad Scenario.fighter = None
  /\ sortEnemiesByPriority Scenario.squad = None
  /\ (forall m : t,
        sortEnemiesByPriority m
        = if (JSMap.size (enemies m) <=? 1)%nat
          then Some (enemies m) else None)
  /\ (forall (performance_now : nat -> R)
             (behaviorTree_update :
                BehaviorContext -> R -> AICharacter.t -> AICharacter.t)
             (w : World) (deltaTime startTime : R),
        updateBatch performance_now behaviorTree_update w Scenario.squad
          deltaTime startTime = None).
Proof.
  split; [apply getPriority_raises|].
  split; [reflexivity|]. split; [apply getPriority_raises|].
  split; [rewrite sortEnemiesByPriority_result; reflexivity|].
  split; [apply sortEnemiesByPriority_result|].
  intros now tree w dt st. unfold updateBatch.
  rewrite sortEnemiesByPriority_result. reflexivity.
Qed.

End Priority.

(** ** The registry *)

Lemma JSMap_set_keys {V : Type} (k : string) (v v0 : V) (m : JSMap.t V) :
  JSMap.get k m = Some v0 -> map fst (JSMap.set k v m) = map fst m.
Proof.
  induction m as [|[k' v'] m IH]; simpl; [discriminate|].
  destruct (String.eqb k k'); simpl; [reflexivity|].
  intros H. rewrite (IH H). reflexivity.
Qed.

Lemma JSMap_size_keys {V : Type} (m m' : JSMap.t V) :
  map fst m' = map fst m -> JSMap.size m' = JSMap.size m.
Proof.
  intros H. unfold JSMap.size.
  rewrite <- (length_map fst m), <- (length_map fst m'), H. reflexivity.
Qed.

(** ** The scheduler: batch and cursor *)

Section Scheduler.
Import AIManager.

Variable performance_now : nat -> R.
Variable Math_random : nat -> R.
Variable behaviorTree_update :
  BehaviorContext -> R -> AICharacter.t -> AICharacter.t.

Lemma sameSchedule_refl (m : t) : sameSchedule m m.
Proof. repeat split. Qed.

Lemma sameSchedule_trans (m1 m2 m3 : t) :
  sameSchedule m1 m2 -> sameSchedule m2 m3 -> sameSchedule m1 m3.
Proof.
  intros (A1 & A2 & A3 & A4 & A5) (B1 & B2 & B3 & B4 & B5).
  repeat split; congruence.
Qed.

Lemma perceive_manager (w : World) (m : t) (enemy : AICharacter.t) :
  let '(_, m', _, _) := perceive performance_now w m enemy in
  sameSchedule m m' /\ enemies m' = enemies m.
Proof.
  unfold perceive, readClock. cbv zeta beta iota.
  match goal with
  | |- context [PerceptionSystem.update ?a ?b ?c ?d ?e] =>
      destruct (PerceptionSystem.update a b c d e) as [ps r]
  end.
  split; [repeat split|reflexivity].
Qed.

Lemma updateEnemy_manager (w : World) (m : t) (enemy : AICharacter.t) (dt : R) :
  let '(_, m', _) := updateEnemy performance_now behaviorTree_update w m enemy dt in
  sameSchedule m m' /\ enemies m' = enemies m.
Proof.
  unfold updateEnemy, updateEnemyFull, updateEnemySimplified, updateEnemyBasic.
  pose proof (perceive_manager w m enemy) as Hp.
  destruct (perceive performance_now w m enemy) as [[[w1 m1] e1] r1].
  destruct (JS.ltb _ 20); [|destruct (JS.ltb _ 50)];
    destruct (negb (AICharacter.isAlive enemy));
    first [exact Hp | split; [apply sameSchedule_refl|reflexivity]].
Qed.

Lemma updateEnemyAt_manager (w : World) (m : t) (key : string) (dt : R) :
  sameSchedule m (snd (updateEnemyAt performance_now behaviorTree_update w m key dt)).
Proof.
  unfold updateEnemyAt.
  destruct (JSMap.get key (enemies m)) as [enemy|] eqn:Hget;
    [|apply sameSchedule_refl].
  pose proof (updateEnemy_manager w m enemy dt) as Hu.
  destruct (updateEnemy _ _ w m enemy dt) as [[w1 m1] e1].
  destruct Hu as [(A1 & A2 & A3 & A4 & A5) Hen]. simpl.
  repeat split; try assumption.
  simpl. rewrite Hen. apply (JSMap_set_keys _ _ enemy). exact Hget.
Qed.

(** The batch loop: the schedule is untouched, the count grows by at most
    the number of agents left and never passes the batch size; when the
    clock never exceeds the budget, it stops only at one of these bounds. *)
Lemma batchLoop_count (dt startTime : R) (rest : list (string * AICharacter.t)) :
  forall (w : World) (m : t) (processed : nat),
    let '(_, m', processed') :=
      batchLoop performance_now behaviorTree_update dt startTime w m processed rest in
    sameSchedule m m'
    /\ (processed <= processed')%nat
    /\ (processed' <= processed + List.length rest)%nat
    /\ ((processed <= batchSize m)%nat -> (processed' <= batchSize m)%nat)
    /\ ((forall k, performance_now k - startTime <= timeBudget m) ->
        (processed <= batchSize m)%nat ->
        processed' = Nat.min (batchSize m) (processed + List.length rest)).
Proof.
  induction rest as [|enemy rest IH]; intros w m processed; simpl.
  - split; [apply sameSchedule_refl|]. repeat split; try lia.
  - destruct (batchSize m <=? processed)%nat eqn:Eb.
    { apply Nat.leb_le in Eb.
      split; [apply sameSchedule_refl|]. repeat split; try lia. }
    apply Nat.leb_gt in Eb.
    cmp_case (JS.gtb (performance_now (clockReads w) - startTime) (timeBudget m)).
    { split; [apply sameSchedule_refl|]. repeat split; try lia.
      intros Hk _. specialize (Hk (clockReads w)). lra. }
    pose proof (updateEnemyAt_manager
                  (mkWorld (S (clockReads w)) (randomDraws w)) m (fst enemy) dt) as Hs.
    destruct (updateEnemyAt _ _ _ m (fst enemy) dt) as [w1 m1]. simpl in Hs.
    specialize (IH w1 m1 (S processed)).
    destruct (batchLoop _ _ dt startTime w1 m1 (S processed) rest)
      as [[w2 m2] p2].
    destruct IH as (I1 & I2 & I3 & I4 & I5).
    pose proof Hs as (S1 & S2 & S3 & S4 & S5).
    split; [eapply sameSchedule_trans; eassumption|].
    rewrite S1, S2 in *.
    repeat split; try lia.
    intros Hk Hp. rewrite I5 by (assumption || lia). lia.
Qed.

Lemma alertNearbyEnemies_loop_keys (w : World) (p : Vector3)
    (source : AICharacter.t) (l : JSMap.t AICharacter.t) :
  map fst (snd (stateOf (alertNearbyEnemies_loop Math_random w p source l)))
  = map fst l.
Proof.
  revert w. induction l as [|[key enemy] l IH]; intros w; [reflexivity|].
  simpl.
  destruct (if String.eqb (AICharacter.id enemy) (AICharacter.id source)
               || negb (AICharacter.isAlive enemy)
            then _ else _) as [[w1 e1]|[w1 e1]]; [|reflexivity].
  specialize (IH w1).
  destruct (alertNearbyEnemies_loop Math_random w1 p source l)
    as [[w2 l2]|[w2 l2]]; simpl in *; rewrite IH; reflexivity.
Qed.

Lemma alertNearbyEnemies_manager (w : World) (m : t) (source : AICharacter.t) :
  sameSchedule m (snd (stateOf (alertNearbyEnemies Math_random w m source))).
Proof.
  unfold alertNearbyEnemies.
  pose proof (alertNearbyEnemies_loop_keys w (playerPosition m) source (enemies m)) as H.
  destruct (alertNearbyEnemies_loop _ w (playerPosition m) source (enemies m))
    as [[w1 l1]|[w1 l1]]; simpl in *; repeat split; exact H.
Qed.

Lemma updateGroupAI_loop_manager (keys : list string) :
  forall (w : World) (m : t),
    sameSchedule m (snd (stateOf (updateGroupAI_loop Math_random w m keys))).
Proof.
  induction keys as [|key keys IH]; intros w m; simpl;
    [apply sameSchedule_refl|].
  destruct (JSMap.get key (enemies m)) as [enemy|]; [|apply IH].
  destruct (AICharacter.isAlive enemy && _); [|apply IH].
  pose proof (alertNearbyEnemies_manager w m enemy) as Ha.
  destruct (alertNearbyEnemies Math_random w m enemy) as [[w1 m1]|[w1 m1]];
    simpl in Ha; [|exact Ha].
  eapply sameSchedule_trans; [exact Ha|apply IH].
Qed.

Lemma updateGroupAI_manager (w : World) (m : t) :
  sameSchedule m (snd (stateOf (updateGroupAI Math_random w m))).
Proof. apply updateGroupAI_loop_manager. Qed.

(** On a registry of at most one agent the only candidate for an alert is
    the source itself: the pass returns and leaves the manager as it was. *)
Lemma updateGroupAI_small (w : World) (m : t) :
  (JSMap.size (enemies m) <= 1)%nat -> updateGroupAI Math_random w m = Normal (w, m).
Proof.
  intros Hs. unfold updateGroupAI.
  destruct m as [en ps cs pp tb bs cur ut ac]. simpl in *.
  destruct en as [|[k e] [|x en]]; simpl in Hs; try lia; simpl; [reflexivity|].
  rewrite String.eqb_refl.
  destruct (AICharacter.isAlive e && _); [|reflexivity].
  unfold alertNearbyEnemies. simpl. rewrite String.eqb_refl. reflexivity.
Qed.

End Scheduler.

Section SchedulerClaims.
Import AIManager.

Variable performance_now : nat -> R.
Variable Math_random : nat -> R.
Variable behaviorTree_update :
  BehaviorContext -> R -> AICharacter.t -> AICharacter.t.

Lemma updateBatch_raises (w : World) (m : t) (dt startTime : R) :
  (2 <= JSMap.size (enemies m))%nat ->
  updateBatch performance_now behaviorTree_update w m dt startTime = None.
Proof.
  intros Hs. unfold updateBatch. rewrite sortEnemiesByPriority_result.
  destruct (Nat.leb_spec (JSMap.size (enemies m)) 1); [lia|reflexivity].
Qed.

(** With two or more agents a frame ends in the sort: it has read the clock
    once and written nothing. *)
Lemma update_raises (w : World) (m : t) (dt : R) :
  (2 <= JSMap.size (enemies m))%nat ->
  update performance_now Math_random behaviorTree_update w m dt
  = Throw (mkWorld (S (clockReads w)) (randomDraws w), m)
  /\ processedInTick performance_now behaviorTree_update w m dt = 0%nat.
Proof.
  intros Hs. unfold update, processedInTick, readClock. cbv zeta beta iota.
  rewrite (updateBatch_raises _ m dt _ Hs). split; reflexivity.
Qed.

Lemma updateBatch_small (w : World) (m : t) (dt startTime : R) :
  (JSMap.size (enemies m) <= 1)%nat ->
  exists w1 m1 processed,
    updateBatch performance_now behaviorTree_update w m dt startTime
    = Some (w1, m1, processed)
    /\ map fst (enemies m1) = map fst (enemies m).
Proof.
  intros Hs. unfold updateBatch. rewrite sortEnemiesByPriority_result.
  destruct (Nat.leb_spec (JSMap.size (enemies m)) 1); [|lia]. simpl.
  pose proof (batchLoop_count performance_now behaviorTree_update dt startTime
                (skipn (currentBatchIndex m) (enemies m)) w m 0) as Hb.
  destruct (batchLoop _ _ dt startTime w m 0 _) as [[w1 m1] p1].
  destruct Hb as ((_ & _ & _ & _ & Hk) & _).
  eexists _, _, _. split; [reflexivity|]. exact Hk.
Qed.

(** C7 (what the code does).  Fifty agents are registered, the batch size
    is 10 and the cursor is at 0.  Whatever the clock, the random numbers and
    the behaviour trees are, the frame raises in the sort, before the batch
    loop: no agent is processed and the manager, its cursor included, is as
    before.  The cursor is 0 after the first frame, not 10. *)
Theorem frame_aborts_before_batch (w : World) (dt : R) :
  JSMap.size (enemies Scenario.horde) = 50%nat
  /\ batchSize Scenario.horde = 10%nat
  /\ currentBatchIndex Scenario.horde = 0%nat
  /\ update performance_now Math_random behaviorTree_update w Scenario.horde dt
     = Throw (mkWorld (S (clockReads w)) (randomDraws w), Scenario.horde)
  /\ processedInTick performance_now behaviorTree_update w Scenario.horde dt
     = 0%nat
  /\ currentBatchIndex
       (snd (stateOf
               (update performance_now Math_random behaviorTree_update w
                  Scenario.horde dt))) = 0%nat.
Proof.
  assert (Hsize : JSMap.size (enemies Scenario.horde) = 50%nat)
    by (vm_compute; reflexivity).
  assert (H2 : (2 <= JSMap.size (enemies Scenario.horde))%nat)
    by (rewrite Hsize; lia).
  destruct (update_raises w Scenario.horde dt H2) as [Hu Hp].
  split; [exact Hsize|]. split; [vm_compute; reflexivity|].
  split; [vm_compute; reflexivity|]. split; [exact Hu|]. split; [exact Hp|].
  rewrite Hu. vm_compute. reflexivity.
Qed.

End SchedulerClaims.

(** ** Concrete distances *)

Lemma length_by_square (a b c r : R) :
  0 <= r -> r * r = a * a + b * b + c * c -> length (mkVector3 a b c) = r.
Proof.
  intros Hr Hsq. unfold length, lengthSq. simpl.
  apply sqrt_lem_1; [nra|exact Hr|exact Hsq].
Qed.

Lemma distanceTo_by_square (p q : Vector3) (r : R) :
  0 <= r ->
  r * r = (x p - x q) * (x p - x q) + (y p - y q) * (y p - y q)
          + (z p - z q) * (z p - z q) ->
  distanceTo p q = r.
Proof. intros Hr Hsq. unfold distanceTo, subVectors. apply length_by_square; assumption. Qed.

(** ** The group-alert pass *)

Section GroupAlert.
Import AIManager.

Lemma transitionTo_state (s : AIState) (a : AICharacter.t) :
  AICharacter.state (AICharacter.transitionTo s a) = s.
Proof.
  unfold AICharacter.transitionTo.
  destruct (AIState_eqb (AICharacter.state a) s) eqn:E.
  - destruct (AICharacter.state a), s; try discriminate E; reflexivity.
  - destruct s; simpl; try reflexivity.
    unfold AICharacter.startPatrol. simpl.
    destruct (AICharacter.patrolPoints a); reflexivity.
Qed.

Lemma moveToward_state (target : Vector3) (dt : R) (speed : option R)
    (a : AICharacter.t) :
  AICharacter.state (AICharacter.moveToward target dt speed a)
  = AICharacter.state a.
Proof. unfold AICharacter.moveToward. destruct (JS.ltb _ 0.5); reflexivity. Qed.

(** [alertNearbyEnemies] writes to an agent only after it has read
    [AIState.ALERT]: whether the call returns or raises, world and registry
    are as they were. *)
Lemma alertNearbyEnemies_loop_state (rnd : nat -> R) (p : Vector3)
    (source : AICharacter.t) (l : JSMap.t AICharacter.t) (w : World) :
  stateOf (alertNearbyEnemies_loop rnd w p source l) = (w, l).
Proof.
  induction l as [|[k e] l IH]; [reflexivity|].
  simpl.
  destruct (String.eqb (AICharacter.id e) (AICharacter.id source)
            || negb (AICharacter.isAlive e)); simpl.
  - destruct (alertNearbyEnemies_loop rnd w p source l) as [[w2 l2]|[w2 l2]];
      simpl in IH; inversion IH; reflexivity.
  - destruct (JS.ltb _ 30); simpl; [reflexivity|].
    destruct (alertNearbyEnemies_loop rnd w p source l) as [[w2 l2]|[w2 l2]];
      simpl in IH; inversion IH; reflexivity.
Qed.

(** It returns exactly when no entry is a live agent other than the source
    less than 30 units from it. *)
Lemma alertNearbyEnemies_loop_returned (rnd : nat -> R) (p : Vector3)
    (source : AICharacter.t) (l : JSMap.t AICharacter.t) (w : World) :
  returned (alertNearbyEnemies_loop rnd w p source l)
  = forallb
      (fun e =>
         String.eqb (AICharacter.id (snd e)) (AICharacter.id source)
         || negb (AICharacter.isAlive (snd e))
         || negb (JS.ltb (distanceTo (AICharacter.position (snd e))
                            (AICharacter.position source)) 30)) l.
Proof.
  induction l as [|[k e] l IH]; [reflexivity|].
  simpl.
  destruct (String.eqb (AICharacter.id e) (AICharacter.id source)
            || negb (AICharacter.isAlive e)); simpl.
  - destruct (alertNearbyEnemies_loop rnd w p source l) as [[w2 l2]|[w2 l2]];
      simpl in *; exact IH.
  - destruct (JS.ltb _ 30); simpl; [reflexivity|].
    destruct (alertNearbyEnemies_loop rnd w p source l) as [[w2 l2]|[w2 l2]];
      simpl in *; exact IH.
Qed.

Lemma set_enemies_same (m : t) : set_enemies (enemies m) m = m.
Proof. destruct m; reflexivity. Qed.

Lemma alertNearbyEnemies_state (rnd : nat -> R) (w : World) (m : t)
    (source : AICharacter.t) :
  stateOf (alertNearbyEnemies rnd w m source) = (w, m).
Proof.
  unfold alertNearbyEnemies.
  pose proof (alertNearbyEnemies_loop_state rnd (playerPosition m) source
                (enemies m) w) as H.
  destruct (alertNearbyEnemies_loop rnd w (playerPosition m) source (enemies m))
    as [[w1 l1]|[w1 l1]]; simpl in *; inversion H; subst;
    rewrite set_enemies_same; reflexivity.
Qed.

Lemma updateGroupAI_loop_state (rnd : nat -> R) (keys : list string)
    (w : World) (m : t) :
  stateOf (updateGroupAI_loop rnd w m keys) = (w, m).
Proof.
  induction keys as [|key keys IH]; simpl; [reflexivity|].
  destruct (JSMap.get key (enemies m)) as [enemy|]; [|exact IH].
  destruct (AICharacter.isAlive enemy && _); [|exact IH].
  pose proof (alertNearbyEnemies_state rnd w m enemy) as Ha.
  destruct (alertNearbyEnemies rnd w m enemy) as [[w1 m1]|[w1 m1]];
    simpl in Ha; inversion Ha; subst; [exact IH|reflexivity].
Qed.

Lemma updateGroupAI_state (rnd : nat -> R) (w : World) (m : t) :
  stateOf (updateGroupAI rnd w m) = (w, m).
Proof. apply updateGroupAI_loop_state. Qed.

(** C8 (what the code does).  A live recruit in state IDLE stands 5 units
    from a scout that sees the player.  The pass reaches the recruit, reads
    [AIState.ALERT] off the unbound import and raises before [transitionTo]
    is entered: the recruit is still IDLE and has no alert target, whatever
    the random numbers are.  The same happens to the squad whose second
    agent is in COMBAT; [transitionTo] itself would take that agent from
    COMBAT to ALERT. *)
Theorem group_alert_raises_before_transition (rnd : nat -> R) (w : World) :
  let after := updateGroupAI rnd w Scenario.patrolSquad in
  AICharacter.state Scenario.recruit = IDLE
  /\ AICharacter.isAlive Scenario.recruit = true
  /\ distanceTo (AICharacter.position Scenario.recruit)
       (AICharacter.position Scenario.scout) = 5
  /\ someoneSeesTarget (enemies Scenario.patrolSquad) = true
  /\ after = Throw (w, Scenario.patrolSquad)
  /\ option_map AICharacter.state
       (JSMap.get "recruit" (enemies (snd (stateOf after)))) = Some IDLE
  /\ option_map AICharacter.alertTarget
       (JSMap.get "recruit" (enemies (snd (stateOf after)))) = Some None
  /\ updateGroupAI rnd w Scenario.squad = Throw (w, Scenario.squad)
  /\ AICharacter.state Scenario.fighter = COMBAT
  /\ AICharacter.state (AICharacter.transitionTo ALERT Scenario.fighter) = ALERT.
Proof.
  assert (Hd : distanceTo zero (mkVector3 3 0 4) = 5).
  { apply distanceTo_by_square; simpl; lra. }
  assert (Hlt : JS.ltb 5 30 = true) by (apply ltb_true; lra).
  assert (Hp : updateGroupAI rnd w Scenario.patrolSquad
               = Throw (w, Scenario.patrolSquad)).
  { unfold updateGroupAI, Scenario.patrolSquad, Scenario.recruit, Scenario.scout.
    unfold registerEnemy, AIManager.new. cbn -[distanceTo JS.ltb].
    unfold alertNearbyEnemies. cbn -[distanceTo JS.ltb].
    rewrite Hd, Hlt. reflexivity. }
  assert (Hs : updateGroupAI rnd w Scenario.squad = Throw (w, Scenario.squad)).
  { unfold updateGroupAI, Scenario.squad, Scenario.fighter, Scenario.scout.
    unfold registerEnemy, AIManager.new. cbn -[distanceTo JS.ltb].
    unfold alertNearbyEnemies. cbn -[distanceTo JS.ltb].
    rewrite Hd, Hlt. reflexivity. }
  cbv zeta. rewrite Hp.
  split; [reflexivity|]. split; [reflexivity|]. split; [exact Hd|].
  split; [reflexivity|]. split; [reflexivity|]. split; [reflexivity|].
  split; [reflexivity|]. split; [exact Hs|]. split; reflexivity.
Qed.

End GroupAlert.

(** ** Cover selection *)

Section Cover.
Import CoverSystem.

(** The margin test of [findBestCover] compares [NaN] with 0.2, which is
    false: the occupied cover plays no part in the result. *)
Lemma findBestCover_ignores_current (cs : t) (enemy : AICharacter.t)
    (threatPosition : Vector3) (st : option CoverState) :
  findBestCover cs enemy threatPosition st =
  findBestCover cs enemy threatPosition None.
Proof.
  unfold findBestCover.
  destruct (getAvailableCovers cs enemy) as [|c l]; [reflexivity|].
  destruct st as [st|]; [|reflexivity].
  destruct (currentCover st) as [current|]; [|reflexivity].
  destruct (option_map fst (hd_error _)) as [best|]; reflexivity.
Qed.

Lemma scoreCover_same_place (c1 c2 : CoverSpot.t) (enemy : AICharacter.t)
    (threatPosition : Vector3) :
  CoverSpot.position c1 = CoverSpot.position c2 ->
  CoverSpot.coverType c1 = CoverSpot.coverType c2 ->
  scoreCover c2 enemy threatPosition - scoreCover c1 enemy threatPosition
  = (CoverSpot.quality c2 - CoverSpot.quality c1) * 0.3.
Proof.
  intros Hp Ht. unfold scoreCover. rewrite Hp, Ht.
  destruct (JS.ltb _ (PI / 2)); destruct (CoverType_eqb _ HIGH); lra.
Qed.

(** C1 (what the code does).  An agent at the origin occupies [coverA]; the
    threat is at (0, 0, 10); [coverB] stands at the same place with a score
    that is 0.09 higher, a margin below 0.2.  [findBestCover] returns
    [coverB], not the occupied [coverA]. *)
Theorem findBestCover_switches_below_margin :
  currentCover (AICharacter.coverState Scenario.occupant) = Some Scenario.coverA
  /\ scoreCover Scenario.coverB Scenario.occupant Scenario.threat
     - scoreCover Scenario.coverA Scenario.occupant Scenario.threat = 0.09
  /\ findBestCover Scenario.covers Scenario.occupant Scenario.threat
       (Some (AICharacter.coverState Scenario.occupant))
     = Some Scenario.coverB
  /\ Scenario.coverB <> Scenario.coverA.
Proof.
  assert (Hdiff :
            scoreCover Scenario.coverB Scenario.occupant Scenario.threat
            - scoreCover Scenario.coverA Scenario.occupant Scenario.threat = 0.09).
  { rewrite scoreCover_same_place by reflexivity. simpl. lra. }
  split; [reflexivity|]. split; [exact Hdiff|]. split.
  - rewrite findBestCover_ignores_current.
    assert (Hd : distanceTo zero (mkVector3 0 0 3) = 3).
    { apply distanceTo_by_square; simpl; lra. }
    assert (Hlt : JS.ltb 3 30 = true) by (apply ltb_true; lra).
    assert (Hav : getAvailableCovers Scenario.covers Scenario.occupant
                  = [Scenario.coverA; Scenario.coverB]).
    { unfold getAvailableCovers, Scenario.covers, Scenario.occupant.
      cbn -[distanceTo JS.ltb]. rewrite Hd, Hlt. reflexivity. }
    unfold findBestCover. rewrite Hav.
    cbn -[scoreCover JS.ltb].
    assert (Hs : JS.ltb
                   (scoreCover Scenario.coverA Scenario.occupant Scenario.threat)
                   (scoreCover Scenario.coverB Scenario.occupant Scenario.threat)
                 = true) by (apply ltb_true; lra).
    rewrite Hs. reflexivity.
  - intros H. apply (f_equal CoverSpot.id) in H. discriminate H.
Qed.

End Cover.

(** ** Perception memory *)

Section PerceptionMemory.

(** What one [update] does to the memory, and what its result reads. *)
Lemma update_memory (now nowDamage : R) (ps : PerceptionSystem.t)
    (enemy : AICharacter.t) (target : Vector3) :
  let ps' := fst (PerceptionSystem.update now nowDamage ps enemy target) in
  let r := snd (PerceptionSystem.update now nowDamage ps enemy target) in
  PerceptionSystem.lastDamagePosition ps'
  = PerceptionSystem.lastDamagePosition ps
  /\ PerceptionSystem.lastDamageTime ps' = PerceptionSystem.lastDamageTime ps
  /\ PerceptionSystem.lastSeenTime ps'
     = (if hasLineOfSight r then now else PerceptionSystem.lastSeenTime ps)
  /\ PerceptionSystem.lastKnownPosition ps'
     = (if hasLineOfSight r then target
        else PerceptionSystem.lastKnownPosition ps)
  /\ PerceptionSystem.lastHeardTime ps'
     = (if canHear r then now else PerceptionSystem.lastHeardTime ps)
  /\ timeSinceLastSeen r = now - PerceptionSystem.lastSeenTime ps'
  /\ timeSinceLastHeard r = now - PerceptionSystem.lastHeardTime ps'
  /\ isTakingDamage r
     = JS.ltb (nowDamage - PerceptionSystem.lastDamageTime ps) 1000
  /\ lastDamagePosition r = PerceptionSystem.lastDamagePosition ps
  /\ lastDamageTime r = PerceptionSystem.lastDamageTime ps.
Proof.
  unfold PerceptionSystem.update, PerceptionSystem.checkDamage. cbv zeta.
  destruct (PerceptionSystem.checkVision _ _ _ _);
    destruct (PerceptionSystem.checkHearing _ _ _ _); simpl;
    repeat split; try reflexivity;
    destruct (JS.ltb _ 1000); reflexivity.
Qed.

Lemma update_senses (now nowDamage : R) (ps : PerceptionSystem.t)
    (enemy : AICharacter.t) (target : Vector3) :
  let r := snd (PerceptionSystem.update now nowDamage ps enemy target) in
  hasLineOfSight r =
    PerceptionSystem.checkVision (AICharacter.position enemy)
      (AICharacter.getForwardDirection enemy) target
      (AICharacter.perceptionConfig enemy)
  /\ canHear r =
       PerceptionSystem.checkHearing (AICharacter.position enemy) target
         (distanceTo target (AICharacter.position enemy))
         (AICharacter.perceptionConfig enemy)
  /\ distanceToTarget r = distanceTo target (AICharacter.position enemy).
Proof. unfold PerceptionSystem.update. cbv zeta. simpl. repeat split. Qed.

End PerceptionMemory.

Section SharedMemory.
Import AIManager.

(** C2 (as stated, refuted).  The sentry hears the player at time 5000; the
    straggler, a different registered agent out of sight and out of earshot,
    is updated at time 6000: its [timeSinceLastHeard] is 1000, where it
    would be 6000 had the sentry not been updated. *)
Lemma perception_memory_not_isolated :
  let m := Scenario.outpost in
  let '(_, m1, _, _) :=
    perceive (fun _ => 5000) (mkWorld 0 0) m Scenario.sentry in
  let before :=
    snd (PerceptionSystem.update 6000 6000 (perception m) Scenario.straggler
           (playerPosition m)) in
  let after :=
    snd (PerceptionSystem.update 6000 6000 (perception m1) Scenario.straggler
           (playerPosition m1)) in
  AICharacter.id Scenario.sentry <> AICharacter.id Scenario.straggler
  /\ JSMap.get "sentry" (enemies m) = Some Scenario.sentry
  /\ JSMap.get "straggler" (enemies m) = Some Scenario.straggler
  /\ timeSinceLastHeard before = 6000
  /\ timeSinceLastHeard after = 1000
  /\ PerceptionSystem.lastHeardTime (perception m1)
     <> PerceptionSystem.lastHeardTime (perception m).
Proof.
  assert (HdA : distanceTo (mkVector3 0 0 10) zero = 10).
  { apply distanceTo_by_square; simpl; lra. }
  assert (HdB : distanceTo (mkVector3 0 0 10) (mkVector3 0 0 50) = 40).
  { apply distanceTo_by_square; simpl; lra. }
  assert (HhA : PerceptionSystem.checkHearing zero (mkVector3 0 0 10) 10
                  (AICharacter.perceptionConfig Scenario.sentry) = true).
  { unfold PerceptionSystem.checkHearing. simpl.
    cmp_case (JS.gtb 10 30); [lra|]. apply ltb_true. lra. }
  assert (HhB : PerceptionSystem.checkHearing (mkVector3 0 0 50)
                  (mkVector3 0 0 10) 40
                  (AICharacter.perceptionConfig Scenario.straggler) = false).
  { unfold PerceptionSystem.checkHearing. simpl.
    cmp_case (JS.gtb 40 30); [reflexivity|lra]. }
  assert (HvB : PerceptionSystem.checkVision (mkVector3 0 0 50)
                  (AICharacter.getForwardDirection Scenario.straggler)
                  (mkVector3 0 0 10)
                  (AICharacter.perceptionConfig Scenario.straggler) = false).
  { apply checkVision_far. rewrite HdB. simpl. lra. }
  cbv zeta. unfold perceive, readClock. cbv zeta beta iota.
  cbn [clockReads randomDraws].
  set (upA := PerceptionSystem.update 5000 5000 (perception Scenario.outpost)
                Scenario.sentry (playerPosition Scenario.outpost)).
  pose proof (update_memory 5000 5000 (perception Scenario.outpost)
                Scenario.sentry (playerPosition Scenario.outpost)) as MA.
  pose proof (update_senses 5000 5000 (perception Scenario.outpost)
                Scenario.sentry (playerPosition Scenario.outpost)) as SA.
  fold upA in MA, SA. cbv zeta in MA, SA.
  destruct upA as [psA rA]. cbn [fst snd] in MA, SA.
  destruct MA as (_ & _ & _ & _ & MA5 & _).
  destruct SA as (_ & SA2 & _).
  change (AICharacter.position Scenario.sentry) with zero in SA2.
  change (playerPosition Scenario.outpost) with (mkVector3 0 0 10) in *.
  rewrite HdA, HhA in SA2. rewrite SA2 in MA5.
  cbn [perception set_perception playerPosition].
  change (perception Scenario.outpost) with PerceptionSystem.new in *.
  change (playerPosition Scenario.outpost) with (mkVector3 0 0 10) in *.
  split; [discriminate|]. split; [reflexivity|]. split; [reflexivity|].
  pose proof (update_memory 6000 6000 PerceptionSystem.new Scenario.straggler
                (mkVector3 0 0 10)) as MB0.
  pose proof (update_senses 6000 6000 PerceptionSystem.new Scenario.straggler
                (mkVector3 0 0 10)) as SB0.
  pose proof (update_memory 6000 6000 psA Scenario.straggler
                (mkVector3 0 0 10)) as MB1.
  pose proof (update_senses 6000 6000 psA Scenario.straggler
                (mkVector3 0 0 10)) as SB1.
  cbv zeta in MB0, SB0, MB1, SB1.
  destruct MB0 as (_ & _ & _ & _ & B05 & _ & B07 & _).
  destruct MB1 as (_ & _ & _ & _ & B15 & _ & B17 & _).
  destruct SB0 as (_ & SB02 & _). destruct SB1 as (_ & SB12 & _).
  change (AICharacter.position Scenario.straggler) with (mkVector3 0 0 50) in *.
  rewrite HdB, HhB in SB02, SB12.
  rewrite SB02 in B05. rewrite SB12 in B15.
  rewrite B07, B05, B17, B15, MA5. simpl. repeat split; lra.
Qed.

(** C2 (amended).  The memory is one set of fields in the manager's single
    perception system.  A perception update for agent [A] leaves the
    registry, hence every other agent's record, as it was, and never writes
    the damage fields; it writes the last-seen position and time when [A]
    sees the target and the last-heard time when [A] hears it.  The next
    result for any agent [B] reads that same memory: its elapsed times are
    measured from [A]'s sighting or hearing unless [B] itself sees or hears,
    and after a [recordDamage] it reports that damage, whoever it was
    recorded for. *)
Theorem perception_memory_shared (performance_now : nat -> R) (w : World)
    (m : t) (A B : AICharacter.t) (nowB nowB' : R) :
  let nowA := performance_now (clockReads w) in
  let '(_, m1, _, rA) := perceive performance_now w m A in
  let rB :=
    snd (PerceptionSystem.update nowB nowB' (perception m1) B
           (playerPosition m1)) in
  enemies m1 = enemies m
  /\ PerceptionSystem.lastDamagePosition (perception m1)
     = PerceptionSystem.lastDamagePosition (perception m)
  /\ PerceptionSystem.lastDamageTime (perception m1)
     = PerceptionSystem.lastDamageTime (perception m)
  /\ PerceptionSystem.lastSeenTime (perception m1)
     = (if hasLineOfSight rA then nowA
        else PerceptionSystem.lastSeenTime (perception m))
  /\ PerceptionSystem.lastKnownPosition (perception m1)
     = (if hasLineOfSight rA then playerPosition m
        else PerceptionSystem.lastKnownPosition (perception m))
  /\ PerceptionSystem.lastHeardTime (perception m1)
     = (if canHear rA then nowA
        else PerceptionSystem.lastHeardTime (perception m))
  /\ timeSinceLastSeen rB
     = nowB - (if hasLineOfSight rB then nowB
               else if hasLineOfSight rA then nowA
               else PerceptionSystem.lastSeenTime (perception m))
  /\ timeSinceLastHeard rB
     = nowB - (if canHear rB then nowB
               else if canHear rA then nowA
               else PerceptionSystem.lastHeardTime (perception m))
  /\ isTakingDamage rB
     = JS.ltb (nowB' - PerceptionSystem.lastDamageTime (perception m)) 1000
  /\ lastDamagePosition rB
     = PerceptionSystem.lastDamagePosition (perception m)
  /\ forall (nowD : R) (p : Vector3),
       let rB' :=
         snd (PerceptionSystem.update nowB nowB'
                (PerceptionSystem.recordDamage nowD p (perception m1)) B
                (playerPosition m1)) in
       isTakingDamage rB' = JS.ltb (nowB' - nowD) 1000
       /\ lastDamagePosition rB' = Some p
       /\ lastDamageTime rB' = nowD.
Proof.
  cbv zeta. unfold perceive, readClock. cbv zeta beta iota.
  cbn [clockReads randomDraws].
  set (nowA := performance_now (clockReads w)).
  set (nowA' := performance_now (S (clockReads w))).
  pose proof (update_memory nowA nowA' (perception m) A (playerPosition m)) as MA.
  cbv zeta in MA.
  destruct (PerceptionSystem.update nowA nowA' (perception m) A (playerPosition m))
    as [psA rA].
  cbn [fst snd] in MA.
  destruct MA as (A1 & A2 & A3 & A4 & A5 & _).
  cbn [perception set_perception playerPosition enemies].
  pose proof (update_memory nowB nowB' psA B (playerPosition m)) as MB.
  cbv zeta in MB.
  destruct MB as (_ & _ & B3 & _ & B5 & B6 & B7 & B8 & B9 & _).
  split; [reflexivity|].
  repeat (split; [assumption|]).
  split; [rewrite B6, B3, A3; reflexivity|].
  split; [rewrite B7, B5, A5; reflexivity|].
  split; [rewrite B8, A2; reflexivity|].
  split; [rewrite B9, A1; reflexivity|].
  intros nowD p.
  pose proof (update_memory nowB nowB' (PerceptionSystem.recordDamage nowD p psA)
                B (playerPosition m)) as MD.
  cbv zeta in MD.
  destruct MD as (_ & _ & _ & _ & _ & _ & _ & D8 & D9 & D10).
  rewrite D8, D9, D10. simpl. repeat split.
Qed.

End SharedMemory.

(** * Instances *)

Section Instances.

Lemma takeDamage_mitigation_order_witness :
  AICharacter.isAlive Scenario.armored = true
  /\ 0 <= 30
  /\ AICharacter.armor (AICharacter.takeDamage 30 Scenario.armored) = 20 - 15
  /\ AICharacter.health (AICharacter.takeDamage 30 Scenario.armored) = 100 - 15.
Proof.
  assert (Hd : 0 <= 30) by lra.
  destruct (takeDamage_mitigation_order Scenario.armored 30 eq_refl Hd)
    as (_ & _ & _ & _ & H).
  destruct (H eq_refl eq_refl) as (H1 & _ & H3).
  split; [reflexivity|]. split; [exact Hd|]. split; [exact H1|].
  apply H3. simpl. lra.
Defined.

Lemma health_armor_invariant_witness :
  let cs := [TakeDamage 30; Respawn zero; TakeDamage 200; TakeDamage 1] in
  0 <= AICharacter.health Scenario.armored
       <= AICharacter.maxHealth Scenario.armored
  /\ 0 <= AICharacter.armor Scenario.armored
  /\ Forall nonNegativeDamage cs
  /\ 0 <= AICharacter.health (calls Scenario.armored cs)
          <= AICharacter.maxHealth (calls Scenario.armored cs)
  /\ 0 <= AICharacter.armor (calls Scenario.armored cs).
Proof.
  cbv zeta.
  assert (H1 : 0 <= AICharacter.health Scenario.armored
                    <= AICharacter.maxHealth Scenario.armored) by (simpl; lra).
  assert (H2 : 0 <= AICharacter.armor Scenario.armored) by (simpl; lra).
  assert (H3 : Forall nonNegativeDamage
                 [TakeDamage 30; Respawn zero; TakeDamage 200; TakeDamage 1]).
  { repeat constructor; simpl; lra. }
  split; [exact H1|]. split; [exact H2|]. split; [exact H3|].
  exact (health_armor_invariant Scenario.armored _ H1 H2 H3).
Defined.

Lemma update_recomputes_state_witness :
  AICharacter.isAlive Scenario.fighter = true
  /\ AICharacter.state
       (AICharacter.update 0.016
          (AICharacter.transitionTo RETREAT Scenario.fighter)) <> RETREAT
  /\ AICharacter.state (AICharacter.update 0.016 Scenario.fighter) <> ALERT.
Proof.
  destruct (update_recomputes_state 0.016 Scenario.fighter eq_refl)
    as (_ & H2 & H3 & _ & H5).
  split; [reflexivity|]. split; [|exact H2].
  rewrite (H5 RETREAT). exact H3.
Defined.

(** Three targets for an agent at the origin that faces (0, 0, 1): one 10
    units straight ahead, one 10 units straight behind, and one 20 units
    away in the peripheral cone only. *)
Lemma checkVision_cone_rule_witness :
  let forward := mkVector3 0 0 1 in
  PerceptionSystem.checkVision zero forward (mkVector3 0 0 10)
    DEFAULT_PERCEPTION_CONFIG = true
  /\ PerceptionSystem.checkVision zero forward (mkVector3 0 0 (-10))
       DEFAULT_PERCEPTION_CONFIG = false
  /\ PerceptionSystem.checkVision zero forward (mkVector3 12 0 16)
       Scenario.peripheralOnly = false.
Proof.
  cbv zeta.
  assert (Hf : lengthSq (mkVector3 0 0 1) = 1) by (unfold lengthSq; simpl; lra).
  assert (Hpi := PI_RGT_0).
  split; [|split].
  - destruct (checkVision_cone_rule zero (mkVector3 0 0 1) (mkVector3 0 0 10)
                DEFAULT_PERCEPTION_CONFIG) as (_ & _ & H & _).
    assert (Hl : length (subVectors (mkVector3 0 0 10) zero) = 10).
    { apply length_by_square; simpl; lra. }
    apply H; [exact Hf| |unfold distanceTo; rewrite Hl; simpl; lra].
    rewrite (normalize_explicit _ 10) by (lra || exact Hl).
    rewrite angleTo_unit;
      [|exact Hf|unfold lengthSq, multiplyScalar, subVectors; simpl; lra].
    replace (dot _ _) with 1
      by (unfold dot, multiplyScalar, subVectors; simpl; lra).
    apply acos_1.
  - destruct (checkVision_cone_rule zero (mkVector3 0 0 1) (mkVector3 0 0 (-10))
                DEFAULT_PERCEPTION_CONFIG) as (_ & _ & _ & H & _).
    assert (Hl : length (subVectors (mkVector3 0 0 (-10)) zero) = 10).
    { apply length_by_square; simpl; lra. }
    assert (Ha : angleTo (mkVector3 0 0 1)
                   (normalize (subVectors (mkVector3 0 0 (-10)) zero)) = PI).
    { rewrite (normalize_explicit _ 10) by (lra || exact Hl).
      rewrite angleTo_unit;
        [|exact Hf|unfold lengthSq, multiplyScalar, subVectors; simpl; lra].
      replace (dot _ _) with (Ropp 1)
        by (unfold dot, multiplyScalar, subVectors; simpl; lra).
      rewrite acos_opp, acos_1. lra. }
    apply H; try exact Hf; rewrite ?Ha; simpl; lra.
  - destruct (checkVision_cone_rule zero (mkVector3 0 0 1) (mkVector3 12 0 16)
                Scenario.peripheralOnly) as (_ & _ & _ & _ & H).
    assert (Hl : length (subVectors (mkVector3 12 0 16) zero) = 20).
    { apply length_by_square; simpl; lra. }
    assert (Hd : dot (mkVector3 0 0 1)
                   (normalize (subVectors (mkVector3 12 0 16) zero)) = 0.8).
    { rewrite (normalize_explicit _ 20) by (lra || exact Hl).
      unfold dot, multiplyScalar, subVectors. simpl. lra. }
    apply H; rewrite ?Hd; simpl.
    + replace (0 / 2) with 0 by lra. rewrite cos_0. lra.
    + rewrite cos_PI2. lra.
    + unfold distanceTo. rewrite Hl. lra.
Defined.

End Instances.

(** * Further properties of the agent *)

Section AgentDamage.
Import AICharacter.

Lemma absorbed_half (a : t) (d : R) : 0 <= d -> absorbed a d <= d * 0.5.
Proof.
  intros Hd. unfold absorbed. destruct (JS.gtb (armor a) 0); [|lra].
  apply Rmin_l.
Qed.

Lemma die_keeps_attributes (a : t) :
  health (die a) = health a /\ armor (die a) = armor a
  /\ maxHealth (die a) = maxHealth a.
Proof. repeat split. Qed.

Lemma takeDamage_attributes (a : t) (d : R) :
  isAlive a = true ->
  armor (takeDamage d a) = armor a - absorbed a d
  /\ health (takeDamage d a) = Rmax 0 (health a - (d - absorbed a d))
  /\ isAlive (takeDamage d a)
     = negb (JS.leb (Rmax 0 (health a - (d - absorbed a d))) 0).
Proof.
  intros Ha. rewrite (takeDamage_alive a d Ha).
  pose proof (afterMitigation_armor a d) as HA.
  pose proof (afterMitigation_health a d) as HH.
  assert (Hal : isAlive (afterMitigation a d) = true).
  { unfold afterMitigation. destruct (JS.gtb (armor a) 0); simpl; exact Ha. }
  rewrite <- HH. remember (afterMitigation a d) as b eqn:Hb. clear Hb.
  destruct (JS.leb (health b) 0); simpl; rewrite ?Hal; auto.
Qed.

(** X1.  No damage is lost: when the health can take what the armor lets
    through, the armor loss and the health loss of one [takeDamage] add up to
    the amount, and the armor never takes more than half of it. *)
Theorem takeDamage_splits_damage (a : t) (d : R) :
  isAlive a = true -> 0 <= d -> 0 <= armor a ->
  d - absorbed a d <= health a ->
  (armor a - armor (takeDamage d a)) + (health a - health (takeDamage d a)) = d
  /\ 0 <= armor a - armor (takeDamage d a) <= d * 0.5.
Proof.
  intros Ha Hd Harm Hfit.
  destruct (takeDamage_attributes a d Ha) as (HA & HH & _).
  destruct (absorbed_bounds a d Hd Harm) as [[Hb0 Hb1] Hb2].
  pose proof (absorbed_half a d Hd) as Hhalf.
  rewrite HA, HH, Rmax_right by lra. split; lra.
Qed.

(** X2.  Armor never saves an agent from an amount of at least twice its
    health: the agent dies.  An amount below the health never kills. *)
Theorem takeDamage_lethal_threshold (a : t) (d : R) :
  isAlive a = true -> 0 <= health a ->
  (2 * health a <= d ->
   isAlive (takeDamage d a) = false /\ state (takeDamage d a) = DEAD
   /\ health (takeDamage d a) = 0)
  /\ (0 <= d -> 0 <= armor a -> d < health a ->
      isAlive (takeDamage d a) = true /\ 0 < health (takeDamage d a)).
Proof.
  intros Ha Hh. split.
  - intros Hd.
    assert (Hrem : health a - (d - absorbed a d) <= 0).
    { unfold absorbed. destruct (JS.gtb (armor a) 0); [|lra].
      pose proof (Rmin_l (d * 0.5) (armor a)). lra. }
    rewrite (takeDamage_alive a d Ha).
    pose proof (afterMitigation_health a d) as HH.
    rewrite Rmax_left in HH by lra.
    remember (afterMitigation a d) as b eqn:Hb. clear Hb.
    cmp_case (JS.leb (health b) 0); [|lra].
    simpl. repeat split. exact HH.
  - intros Hd Harm Hlt.
    destruct (takeDamage_attributes a d Ha) as (_ & HH & Hal).
    destruct (absorbed_bounds a d Hd Harm) as [[Hb0 Hb1] Hb2].
    rewrite Rmax_right in HH, Hal by lra.
    rewrite Hal, HH.
    cmp_case (JS.leb (health a - (d - absorbed a d)) 0); [lra|].
    split; [reflexivity|lra].
Qed.

Lemma takeDamage_lethal_threshold_witness :
  isAlive Scenario.armored = true /\ 0 <= health Scenario.armored
  /\ isAlive (takeDamage 200 Scenario.armored) = false
  /\ isAlive (takeDamage 99 Scenario.armored) = true.
Proof.
  assert (Hh : 0 <= health Scenario.armored) by (simpl; lra).
  destruct (takeDamage_lethal_threshold Scenario.armored 200 eq_refl Hh)
    as [H1 _].
  destruct (takeDamage_lethal_threshold Scenario.armored 99 eq_refl Hh)
    as [_ H2].
  split; [reflexivity|]. split; [exact Hh|]. split.
  - apply H1. simpl. lra.
  - apply H2; simpl; lra.
Defined.

Lemma takeDamage_splits_damage_witness :
  (armor Scenario.armored - armor (takeDamage 30 Scenario.armored))
  + (health Scenario.armored - health (takeDamage 30 Scenario.armored)) = 30.
Proof.
  apply (takeDamage_splits_damage Scenario.armored 30); simpl; try lra;
    try reflexivity.
  unfold absorbed. simpl.
  destruct (JS.gtb 20 0); [pose proof (Rmin_r (30 * 0.5) 20)|];
    pose proof (Rmin_l (30 * 0.5) 20); unfold Rmin in *;
    destruct (Rle_dec (30 * 0.5) 20); lra.
Defined.

(** X3.  A dead agent is inert: no sequence of [takeDamage] and [update]
    calls changes anything in it. *)
Theorem dead_agent_is_inert (a : t) (cs : list LifeCall) :
  isAlive a = false -> fold_left lifeCall cs a = a.
Proof.
  intros Ha. induction cs as [|c cs IH]; [reflexivity|].
  simpl. replace (lifeCall a c) with a; [exact IH|].
  destruct c; simpl; unfold takeDamage, update; rewrite Ha; reflexivity.
Qed.

Lemma dead_agent_is_inert_witness :
  fold_left lifeCall [Damage 50; Frame 0.016; Damage 1]
    (die Scenario.armored) = die Scenario.armored.
Proof. apply dead_agent_is_inert. reflexivity. Defined.

(** X4.  [respawn] restores life, full health and the IDLE state at the
    given position, but keeps the cover bookkeeping and the stored
    perception: an agent that died in cover is in state COVER again after
    its next [update]. *)
Theorem respawn_keeps_cover_bookkeeping (p : Vector3) (a : t) (dt : R) :
  isAlive (respawn p a) = true
  /\ state (respawn p a) = IDLE
  /\ health (respawn p a) = maxHealth a
  /\ armor (respawn p a) = 0
  /\ position (respawn p a) = p
  /\ isInCover (respawn p a) = isInCover a
  /\ coverState (respawn p a) = coverState a
  /\ perception (respawn p a) = perception a
  /\ alertTarget (respawn p a) = alertTarget a
  /\ (isInCover a = true -> state (update dt (respawn p a)) = COVER)
  /\ (isInCover a = true ->
      state (update dt (respawn p (takeDamage (2 * health a) a))) = COVER).
Proof.
  repeat (split; [reflexivity|]).
  assert (H : forall b, isInCover b = true ->
                        state (update dt (respawn p b)) = COVER).
  { intros b Hc. rewrite update_state_alive by reflexivity.
    unfold stateOfCondition. simpl. rewrite Hc. reflexivity. }
  split; [apply H|].
  intros Hc. apply H.
  unfold takeDamage. destruct (negb (isAlive a)); [exact Hc|].
  destruct (JS.gtb (armor a) 0); simpl;
    destruct (JS.leb _ 0); simpl; exact Hc.
Qed.

Lemma respawn_keeps_cover_bookkeeping_witness :
  state (update 0.016 (respawn zero (die Scenario.occupant))) = COVER.
Proof.
  destruct (respawn_keeps_cover_bookkeeping zero (die Scenario.occupant) 0.016)
    as (_ & _ & _ & _ & _ & _ & _ & _ & _ & H & _).
  apply H. reflexivity.
Defined.

End AgentDamage.

Section AgentMotion.
Import AICharacter.

Lemma AIState_eqb_refl (s : AIState) : AIState_eqb s s = true.
Proof. destruct s; reflexivity. Qed.

Lemma AIState_eqb_neq (s s' : AIState) : s <> s' -> AIState_eqb s s' = false.
Proof. intros H. destruct s, s'; try reflexivity; contradiction H; reflexivity. Qed.

(** X5.  [transitionTo] is idempotent, and a transition to the state the
    agent is already in changes nothing (in particular it does not run the
    entry action again). *)
Theorem transitionTo_idempotent (s : AIState) (a : t) :
  transitionTo s (transitionTo s a) = transitionTo s a
  /\ (state a = s -> transitionTo s a = a).
Proof.
  assert (H : forall b, state b = s -> transitionTo s b = b).
  { intros b Hb. unfold transitionTo. rewrite Hb, AIState_eqb_refl. reflexivity. }
  split; [|apply H]. apply H. apply transitionTo_state.
Qed.

Lemma transitionTo_idempotent_witness :
  transitionTo COMBAT Scenario.fighter = Scenario.fighter.
Proof.
  destruct (transitionTo_idempotent COMBAT Scenario.fighter) as [_ H].
  apply H. reflexivity.
Defined.

Lemma length_multiplyScalar (v : Vector3) (s : R) :
  length (multiplyScalar v s) = length v * Rabs s.
Proof.
  unfold length, lengthSq, multiplyScalar. simpl.
  replace (x v * s * (x v * s) + y v * s * (y v * s) + z v * s * (z v * s))
    with ((x v * x v + y v * y v + z v * z v) * (s * s)) by ring.
  rewrite sqrt_mult; [|apply (lengthSq_nonneg v)|nra].
  f_equal. fold (Rsqr s). apply sqrt_Rsqr_abs.
Qed.

Lemma length_normalize (v : Vector3) : length v <> 0 -> length (normalize v) = 1.
Proof.
  intros H. unfold length. rewrite (normalize_unit v H). apply sqrt_1.
Qed.

(** X6.  [moveToward] stops the agent within half a unit of the target;
    farther away it sets a velocity that points at the target and whose
    length is the speed asked for, 2 when the speed is absent or 0. *)
Theorem moveToward_velocity (target : Vector3) (dt : R) (speed : option R)
    (a : t) :
  let distance := distanceTo target (position a) in
  let a' := moveToward target dt speed a in
  (distance < 0.5 -> velocity a' = zero)
  /\ (0.5 <= distance ->
      velocity a'
      = multiplyScalar (subVectors target (position a))
          (moveSpeedOf speed / distance)
      /\ length (velocity a') = Rabs (moveSpeedOf speed))
  /\ moveSpeedOf None = 2 /\ moveSpeedOf (Some 0) = 2.
Proof.
  intros distance a'. subst a'. unfold moveToward.
  fold (distanceTo target (position a)). fold distance. fold (moveSpeedOf speed).
  split; [|split].
  - intros H. cmp_case (JS.ltb distance 0.5); [reflexivity|lra].
  - intros H. cmp_case (JS.ltb distance 0.5); [lra|]. simpl.
    assert (Hn : length (subVectors target (position a)) <> 0).
    { fold (distanceTo target (position a)). fold distance. lra. }
    split.
    + rewrite (normalize_explicit _ distance); [|lra|reflexivity].
      unfold multiplyScalar. simpl. f_equal; field; lra.
    + rewrite length_multiplyScalar, (length_normalize _ Hn). lra.
  - split; [reflexivity|]. unfold moveSpeedOf.
    destruct (JS.eqb 0 0) eqn:E; [reflexivity|apply eqb_false in E; lra].
Qed.

Lemma moveToward_velocity_witness :
  length (velocity (moveToward (mkVector3 0 0 10) 0.016 (Some 4) Scenario.sentry))
  = Rabs 4.
Proof.
  destruct (moveToward_velocity (mkVector3 0 0 10) 0.016 (Some 4) Scenario.sentry)
    as (_ & H & _).
  assert (Hd : distanceTo (mkVector3 0 0 10) (position Scenario.sentry) = 10).
  { apply distanceTo_by_square; simpl; lra. }
  cbv zeta in H. rewrite Hd in H.
  assert (H5 : 0.5 <= 10) by lra.
  destruct (H H5) as [_ Hl]. rewrite Hl. unfold moveSpeedOf.
  destruct (JS.eqb 4 0) eqn:E; [apply eqb_true in E; lra|reflexivity].
Defined.

(** X7.  Entering RETREAT moves the target position to the point 20 units
    from the agent on the side away from the old target; when the agent
    stands on the old target there is no such side and the target stays
    where the agent is. *)
Theorem retreat_target (a : t) :
  state a <> RETREAT ->
  let a' := transitionTo RETREAT a in
  state a' = RETREAT
  /\ position a' = position a
  /\ (position a <> targetPosition a ->
      distanceTo (targetPosition a') (position a) = 20
      /\ dot (subVectors (targetPosition a') (position a))
             (subVectors (targetPosition a) (position a)) < 0)
  /\ (position a = targetPosition a -> targetPosition a' = position a).
Proof.
  intros Hs a'. subst a'. unfold transitionTo.
  rewrite (AIState_eqb_neq _ _ Hs). unfold startRetreat. simpl.
  split; [reflexivity|]. split; [reflexivity|].
  set (v := subVectors (position a) (targetPosition a)).
  split.
  - intros Hne.
    assert (Hl : length v <> 0).
    { intros H0. apply Hne. apply length_zero, lengthSq_zero in H0.
      unfold v, subVectors, zero in H0. inversion H0.
      destruct (position a) as [px py pz], (targetPosition a) as [tx ty tz].
      simpl in *. f_equal; lra. }
    pose proof (normalize_unit v Hl) as Hu.
    pose proof (length_nonneg v) as Hpos.
    pose proof (length_sqr v) as Hsq.
    split.
    + apply distanceTo_by_square; [lra|].
      unfold lengthSq in Hu. remember (normalize v) as n eqn:En. clear En.
      unfold addScaledVector. simpl.
      replace (x (position a) + x n * 20 - x (position a)) with (x n * 20) by ring.
      replace (y (position a) + y n * 20 - y (position a)) with (y n * 20) by ring.
      replace (z (position a) + z n * 20 - z (position a)) with (z n * 20) by ring.
      nra.
    + rewrite (normalize_explicit v (length v)); [|lra|reflexivity].
      set (l := length v) in *. clearbody l.
      unfold dot, addScaledVector, multiplyScalar, subVectors. simpl.
      unfold lengthSq, v, subVectors in Hsq. simpl in Hsq.
      replace (_ + _ + _)
        with (- (20 * (1 / l)) *
              ((x (position a) - x (targetPosition a))
               * (x (position a) - x (targetPosition a))
               + (y (position a) - y (targetPosition a))
                 * (y (position a) - y (targetPosition a))
               + (z (position a) - z (targetPosition a))
                 * (z (position a) - z (targetPosition a)))) by ring.
      rewrite <- Hsq.
      replace (- (20 * (1 / l)) * (l * l)) with (- (20 * l)) by (field; exact Hl).
      lra.
  - intros Heq.
    assert (Hv : length v = 0).
    { unfold v. rewrite Heq. unfold length, lengthSq, subVectors. simpl.
      replace (_ + _ + _) with 0 by ring. apply sqrt_0. }
    rewrite (normalize_degenerate v Hv).
    unfold addScaledVector, zero. simpl.
    destruct (position a) as [px py pz]. simpl. f_equal; ring.
Qed.

Lemma retreat_target_witness :
  distanceTo
    (targetPosition (transitionTo RETREAT Scenario.scout))
    (position Scenario.scout) = 20.
Proof.
  assert (Hs : state Scenario.scout <> RETREAT) by discriminate.
  destruct (retreat_target Scenario.scout Hs) as (_ & _ & H & _).
  apply H. simpl. intros E. inversion E. lra.
Defined.

(** X8.  The flank point of [executeFlankManuver] lies within 10 units of
    the target on each horizontal axis, at the target's height, whatever
    the two random draws in [0, 1) are. *)
Theorem flank_offset_bounded (r1 r2 : R) (target : Vector3) (a : t) :
  0 <= r1 < 1 -> 0 <= r2 < 1 ->
  let a' := executeFlankManuver r1 r2 target a in
  -10 <= x (targetPosition a') - x target < 10
  /\ y (targetPosition a') = y target
  /\ -10 <= z (targetPosition a') - z target < 10
  /\ state a' = state a.
Proof.
  intros H1 H2 a'. subst a'. unfold executeFlankManuver. cbv zeta.
  assert (Ht : forall t s b, targetPosition (moveToward t 0.016 s b)
                             = targetPosition b).
  { intros t s b. unfold moveToward. destruct (JS.ltb _ 0.5); reflexivity. }
  rewrite Ht, moveToward_state. simpl. repeat split; lra.
Qed.

Lemma flank_offset_bounded_witness :
  -10 <= x (targetPosition (executeFlankManuver 0 0.75 zero Scenario.sentry)) - 0
  < 10.
Proof.
  assert (H1 : 0 <= 0 < 1) by lra. assert (H2 : 0 <= 0.75 < 1) by lra.
  destruct (flank_offset_bounded 0 0.75 zero Scenario.sentry H1 H2)
    as (H & _).
  exact H.
Defined.

(** X9.  [patrol] keeps the waypoint index in range: from an index inside
    the waypoint list it returns normally with an index inside the same
    list.  Without waypoints it does nothing; with waypoints and an index
    past the end it raises. *)
Theorem patrol_index_in_range (a : t) :
  (patrolPoints a = [] -> patrol a = Some a)
  /\ (patrolPoints a <> [] ->
      (List.length (patrolPoints a) <= currentPatrolIndex a)%nat ->
      patrol a = None)
  /\ ((currentPatrolIndex a < List.length (patrolPoints a))%nat ->
      exists a',
        patrol a = Some a'
        /\ patrolPoints a' = patrolPoints a
        /\ (currentPatrolIndex a' < List.length (patrolPoints a'))%nat
        /\ position a' = position a).
Proof.
  unfold patrol. split; [|split].
  - intros H. rewrite H. reflexivity.
  - intros Hne Hle. destruct (patrolPoints a) as [|p l] eqn:Hp; [contradiction|].
    rewrite <- Hp in *. apply nth_error_None in Hle. rewrite Hle. reflexivity.
  - intros Hlt. destruct (patrolPoints a) as [|p l] eqn:Hp; [simpl in Hlt; lia|].
    rewrite <- Hp in *.
    destruct (nth_error (patrolPoints a) (currentPatrolIndex a)) as [target|] eqn:Hn;
      [|apply nth_error_None in Hn; lia].
    destruct (JS.ltb _ 1).
    + eexists. split; [reflexivity|]. simpl. repeat split.
      apply Nat.mod_upper_bound. lia.
    + eexists. split; [reflexivity|].
      unfold moveToward. destruct (JS.ltb _ 0.5); simpl; repeat split; exact Hlt.
Qed.

Lemma patrol_index_in_range_witness :
  exists a', patrol patroller = Some a'
             /\ (currentPatrolIndex a' < 3)%nat.
Proof.
  destruct (patrol_index_in_range patroller) as (_ & _ & H).
  assert (Hlt : (currentPatrolIndex patroller
                 < List.length (patrolPoints patroller))%nat) by (simpl; lia).
  destruct (H Hlt) as (a' & H1 & H2 & H3 & _).
  exists a'. split; [exact H1|]. rewrite H2 in H3. exact H3.
Defined.

(** X10.  Reaching a waypoint advances the index cyclically: after the last
    waypoint comes the first. *)
Theorem patrol_advances_cyclically (a : t) (target : Vector3) :
  nth_error (patrolPoints a) (currentPatrolIndex a) = Some target ->
  distanceTo (position a) target < 1 ->
  exists a',
    patrol a = Some a'
    /\ currentPatrolIndex a'
       = (if (S (currentPatrolIndex a) =? List.length (patrolPoints a))%nat
          then 0%nat else S (currentPatrolIndex a))
    /\ velocity a' = velocity a.
Proof.
  intros Hn Hd. unfold patrol.
  assert (Hlt : (currentPatrolIndex a < List.length (patrolPoints a))%nat).
  { apply nth_error_Some. rewrite Hn. discriminate. }
  destruct (patrolPoints a) as [|p l] eqn:Hp; [simpl in Hlt; lia|].
  rewrite <- Hp in *. rewrite Hn.
  apply ltb_true in Hd. rewrite Hd.
  eexists. split; [reflexivity|].
  unfold set_currentPatrolIndex. cbn [currentPatrolIndex velocity].
  split; [|reflexivity].
  replace (currentPatrolIndex a + 1)%nat with (S (currentPatrolIndex a)) by lia.
  destruct (Nat.eqb_spec (S (currentPatrolIndex a)) (List.length (patrolPoints a)))
    as [E|E].
  - rewrite E. apply Nat.Div0.mod_same.
  - apply Nat.mod_small. lia.
Qed.

Lemma patrol_advances_cyclically_witness :
  exists a', patrol patroller = Some a' /\ currentPatrolIndex a' = 2%nat.
Proof.
  assert (Hd : distanceTo (position patroller) (mkVector3 10 0 0) < 1).
  { replace (distanceTo _ _) with 0; [lra|].
    symmetry. apply distanceTo_by_square; simpl; lra. }
  destruct (patrol_advances_cyclically patroller (mkVector3 10 0 0) eq_refl Hd)
    as (a' & H1 & H2 & _).
  exists a'. split; [exact H1|exact H2].
Defined.

End AgentMotion.

(** * Further properties of perception *)

Section PerceptionFacts.

Lemma checkHearing_true (p t : Vector3) (d : R) (config : PerceptionConfig) :
  PerceptionSystem.checkHearing p t d config = true
  <-> d <= alertHearingRange config /\ d < hearingRange config.
Proof.
  unfold PerceptionSystem.checkHearing.
  cmp_case (JS.gtb d (alertHearingRange config)).
  - split; [discriminate|]. intros [H _]. lra.
  - rewrite ltb_true. split; [intros H; split; [lra|exact H]|intros [_ H]; exact H].
Qed.

(** X11.  Hearing is a plain radius test: the target is heard exactly when
    its distance is below [hearingRange] and not above [alertHearingRange];
    with [hearingRange <= alertHearingRange], as in the default
    configuration, [alertHearingRange] has no influence. *)
Theorem checkHearing_radius (p t : Vector3) (d : R) (config : PerceptionConfig) :
  (PerceptionSystem.checkHearing p t d config = true
   <-> d <= alertHearingRange config /\ d < hearingRange config)
  /\ (hearingRange config <= alertHearingRange config ->
      PerceptionSystem.checkHearing p t d config
      = JS.ltb d (hearingRange config)).
Proof.
  split; [apply checkHearing_true|].
  unfold PerceptionSystem.checkHearing.
  intros Hle. cmp_case (JS.gtb d (alertHearingRange config)); [|reflexivity].
  symmetry. apply ltb_false. lra.
Qed.

Lemma checkHearing_radius_witness :
  PerceptionSystem.checkHearing zero (mkVector3 0 0 10) 10
    DEFAULT_PERCEPTION_CONFIG = JS.ltb 10 20.
Proof.
  destruct (checkHearing_radius zero (mkVector3 0 0 10) 10
              DEFAULT_PERCEPTION_CONFIG) as [_ H].
  apply H. simpl. lra.
Defined.

(** X12.  What an [update] senses is remembered: after an update at time
    [now] that saw or heard the target, [remembersTarget] holds at every
    later time [now'] with [now' - now] below the memory duration, and the
    last known position is the target's when it was seen. *)
Theorem sensed_target_is_remembered (now nowDamage now' : R)
    (ps : PerceptionSystem.t) (enemy : AICharacter.t) (target : Vector3)
    (config : PerceptionConfig) :
  let ps' := fst (PerceptionSystem.update now nowDamage ps enemy target) in
  let r := snd (PerceptionSystem.update now nowDamage ps enemy target) in
  (hasLineOfSight r = true \/ canHear r = true ->
   now' - now < memoryDuration config ->
   PerceptionSystem.remembersTarget now' config ps' = true)
  /\ (hasLineOfSight r = true ->
      PerceptionSystem.getLastKnownPosition ps' = target)
  /\ (hasLineOfSight r = false ->
      PerceptionSystem.getLastKnownPosition ps'
      = PerceptionSystem.getLastKnownPosition ps).
Proof.
  intros ps' r.
  destruct (update_memory now nowDamage ps enemy target)
    as (_ & _ & H3 & H4 & H5 & _).
  fold ps' r in H3, H4, H5.
  unfold PerceptionSystem.remembersTarget, PerceptionSystem.getLastKnownPosition.
  split; [|split].
  - intros [Hs|Hh] Hlt; apply orb_true_iff.
    + left. rewrite H3, Hs. apply ltb_true. exact Hlt.
    + right. rewrite H5, Hh. apply ltb_true. exact Hlt.
  - intros Hs. rewrite H4, Hs. reflexivity.
  - intros Hs. rewrite H4, Hs. reflexivity.
Qed.

(** X13.  A fresh perception system starts with all its time stamps at 0:
    until the clock passes 1000 every update reports [isTakingDamage]
    although no damage was recorded (the damage position is absent), and
    until it passes the memory duration the target counts as remembered
    although it was never sensed. *)
Theorem fresh_memory_reports_damage (now nowDamage : R)
    (enemy : AICharacter.t) (target : Vector3) (config : PerceptionConfig) :
  let r :=
    snd (PerceptionSystem.update now nowDamage PerceptionSystem.new enemy target) in
  (nowDamage < 1000 -> isTakingDamage r = true)
  /\ (1000 <= nowDamage -> isTakingDamage r = false)
  /\ lastDamagePosition r = None
  /\ (now < memoryDuration config ->
      PerceptionSystem.remembersTarget now config PerceptionSystem.new = true).
Proof.
  intros r.
  destruct (update_memory now nowDamage PerceptionSystem.new enemy target)
    as (_ & _ & _ & _ & _ & _ & _ & H8 & H9 & _).
  fold r in H8, H9.
  change (PerceptionSystem.lastDamageTime PerceptionSystem.new) with 0 in H8.
  change (PerceptionSystem.lastDamagePosition PerceptionSystem.new)
    with (@None Vector3) in H9.
  replace (nowDamage - 0) with nowDamage in H8 by lra.
  split; [intros H; rewrite H8; apply ltb_true; exact H|].
  split; [intros H; rewrite H8; apply ltb_false; exact H|].
  split; [exact H9|].
  intros H. unfold PerceptionSystem.remembersTarget. simpl.
  apply orb_true_iff. left. apply ltb_true. lra.
Qed.

Lemma fresh_memory_reports_damage_witness :
  isTakingDamage
    (snd (PerceptionSystem.update 16 16 PerceptionSystem.new Scenario.sentry
            (mkVector3 0 0 10))) = true.
Proof.
  destruct (fresh_memory_reports_damage 16 16 Scenario.sentry (mkVector3 0 0 10)
              DEFAULT_PERCEPTION_CONFIG) as (H & _).
  apply H. lra.
Defined.

(** X14.  A perception result is consistent with itself: with line of sight
    the target is within view distance, its position is reported and the
    time since it was last seen is 0; without line of sight no position is
    reported; a heard target is closer than [hearingRange] and the time
    since it was last heard is 0; the angle lies in [0, PI]. *)
Theorem perception_result_consistent (now nowDamage : R)
    (ps : PerceptionSystem.t) (enemy : AICharacter.t) (target : Vector3) :
  let r := snd (PerceptionSystem.update now nowDamage ps enemy target) in
  (hasLineOfSight r = true ->
   distanceToTarget r <= viewDistance (AICharacter.perceptionConfig enemy)
   /\ visiblePosition r = Some target /\ timeSinceLastSeen r = 0)
  /\ (hasLineOfSight r = false -> visiblePosition r = None)
  /\ (canHear r = true ->
      distanceToTarget r < hearingRange (AICharacter.perceptionConfig enemy)
      /\ timeSinceLastHeard r = 0)
  /\ 0 <= angleToTarget r <= PI
  /\ 0 <= distanceToTarget r.
Proof.
  intros r.
  destruct (update_memory now nowDamage ps enemy target)
    as (_ & _ & H3 & _ & H5 & H6 & H7 & _).
  destruct (update_senses now nowDamage ps enemy target) as (S1 & S2 & S3).
  fold r in H3, H5, H6, H7, S1, S2, S3.
  assert (Hvis : visiblePosition r
                 = if hasLineOfSight r then Some target else None).
  { unfold r, PerceptionSystem.update. cbv zeta. simpl.
    destruct (PerceptionSystem.checkVision _ _ _ _); reflexivity. }
  assert (Hang : 0 <= angleToTarget r <= PI).
  { unfold r, PerceptionSystem.update. cbv zeta. simpl. apply angleTo_bounds. }
  split; [|split; [|split; [|split]]].
  - intros Hs. rewrite Hvis, H6, H3, Hs, S3.
    split; [|split; [reflexivity|lra]].
    destruct (Rle_dec (distanceTo target (AICharacter.position enemy))
                (viewDistance (AICharacter.perceptionConfig enemy)))
      as [Hle|Hgt]; [exact Hle|].
    rewrite S1, checkVision_far in Hs by lra. discriminate.
  - intros Hs. rewrite Hvis, Hs. reflexivity.
  - intros Hh. rewrite H7, H5, Hh, S3. split; [|lra].
    rewrite S2 in Hh. apply checkHearing_true in Hh. tauto.
  - exact Hang.
  - rewrite S3. apply length_nonneg.
Qed.

Lemma perception_result_consistent_witness :
  0 <= angleToTarget
         (snd (PerceptionSystem.update 16 16 PerceptionSystem.new
                 Scenario.sentry (mkVector3 0 0 10))) <= PI.
Proof.
  destruct (perception_result_consistent 16 16 PerceptionSystem.new
              Scenario.sentry (mkVector3 0 0 10)) as (_ & _ & _ & H & _).
  exact H.
Defined.

(** X15.  With a clock that does not run backwards the elapsed times of a
    result are never negative: if the memory's time stamps are not in the
    future at [now], they are not after the update either, and
    [timeSinceLastSeen] and [timeSinceLastHeard] are at least 0. *)
Theorem elapsed_times_nonnegative (now nowDamage : R)
    (ps : PerceptionSystem.t) (enemy : AICharacter.t) (target : Vector3) :
  PerceptionSystem.lastSeenTime ps <= now ->
  PerceptionSystem.lastHeardTime ps <= now ->
  let ps' := fst (PerceptionSystem.update now nowDamage ps enemy target) in
  let r := snd (PerceptionSystem.update now nowDamage ps enemy target) in
  0 <= timeSinceLastSeen r /\ 0 <= timeSinceLastHeard r
  /\ PerceptionSystem.lastSeenTime ps <= PerceptionSystem.lastSeenTime ps' <= now
  /\ PerceptionSystem.lastHeardTime ps <= PerceptionSystem.lastHeardTime ps' <= now.
Proof.
  intros Hs Hh ps' r.
  destruct (update_memory now nowDamage ps enemy target)
    as (_ & _ & H3 & _ & H5 & H6 & H7 & _).
  fold ps' r in H3, H5, H6, H7.
  rewrite H6, H7, H3, H5.
  destruct (hasLineOfSight r); destruct (canHear r); repeat split; lra.
Qed.

Lemma elapsed_times_nonnegative_witness :
  0 <= timeSinceLastSeen
         (snd (PerceptionSystem.update 16 16 PerceptionSystem.new
                 Scenario.sentry (mkVector3 0 0 10))).
Proof.
  assert (H0 : PerceptionSystem.lastSeenTime PerceptionSystem.new <= 16)
    by (simpl; lra).
  assert (H1 : PerceptionSystem.lastHeardTime PerceptionSystem.new <= 16)
    by (simpl; lra).
  destruct (elapsed_times_nonnegative 16 16 PerceptionSystem.new Scenario.sentry
              (mkVector3 0 0 10) H0 H1) as (H & _).
  exact H.
Defined.

End PerceptionFacts.

Lemma sensed_target_is_remembered_witness :
  PerceptionSystem.remembersTarget 6000 DEFAULT_PERCEPTION_CONFIG
    (fst (PerceptionSystem.update 5000 5000 PerceptionSystem.new
            Scenario.sentry (mkVector3 0 0 10))) = true.
Proof.
  destruct (sensed_target_is_remembered 5000 5000 6000 PerceptionSystem.new
              Scenario.sentry (mkVector3 0 0 10) DEFAULT_PERCEPTION_CONFIG)
    as (H & _).
  apply H; [right|simpl; lra].
  destruct (update_senses 5000 5000 PerceptionSystem.new Scenario.sentry
              (mkVector3 0 0 10)) as (_ & S2 & _).
  rewrite S2.
  assert (Hd : distanceTo (mkVector3 0 0 10) (AICharacter.position Scenario.sentry)
               = 10) by (apply distanceTo_by_square; simpl; lra).
  rewrite Hd. apply checkHearing_true. simpl. lra.
Defined.

(** * Further properties of cover selection *)

Section CoverFacts.
Import CoverSystem.

Lemma getAvailableCovers_In (cs : t) (enemy : AICharacter.t) (c : CoverSpot.t) :
  In c (getAvailableCovers cs enemy)
  <-> In c (getAllCovers cs) /\ coverAvailable enemy c.
Proof.
  unfold getAvailableCovers, getAllCovers, coverAvailable.
  rewrite filter_In, andb_true_iff, ltb_true.
  destruct (CoverSpot.health c) as [h|]; [rewrite gtb_true|]; tauto.
Qed.

(** X16.  The score of a cover is its quality term plus at most 0.8: the
    distance term lies in [0, 0.3], the positional bonus is 0.4 and the
    height bonus 0.1.  For a quality in [0, 1] the score lies in
    [0, 1.1]. *)
Theorem scoreCover_range (cover : CoverSpot.t) (enemy : AICharacter.t)
    (threat : Vector3) :
  CoverSpot.quality cover * 0.3 <= scoreCover cover enemy threat
  /\ scoreCover cover enemy threat <= CoverSpot.quality cover * 0.3 + 0.8
  /\ (0 <= CoverSpot.quality cover <= 1 ->
      0 <= scoreCover cover enemy threat <= 1.1).
Proof.
  unfold scoreCover.
  set (d := distanceTo (AICharacter.position enemy) (CoverSpot.position cover)).
  assert (Hd : 0 <= d) by apply length_nonneg.
  assert (Hm : 0 <= Rmax 0 ((30 - d) / 30) <= 1).
  { split; [apply Rmax_l|]. apply Rmax_lub; lra. }
  destruct (JS.ltb _ (PI / 2)); destruct (CoverType_eqb _ HIGH);
    repeat split; try intros [Hq0 Hq1]; lra.
Qed.

Lemma scoreCover_range_witness :
  0 <= scoreCover Scenario.coverA Scenario.occupant Scenario.threat <= 1.1.
Proof.
  destruct (scoreCover_range Scenario.coverA Scenario.occupant Scenario.threat)
    as (_ & _ & H).
  apply H. simpl. lra.
Defined.

Lemma sort_desc_head {A : Type} (key : A -> R) (l : list A) (a : A) :
  hd_error (sort_desc key l) = Some a ->
  In a l /\ forall b, In b l -> key b <= key a.
Proof.
  intros Hh.
  pose proof (sort_desc_perm key l) as Hp.
  pose proof (sort_desc_sorted key l) as Hs.
  destruct (sort_desc key l) as [|a' s]; [discriminate|].
  inversion Hh; subst a'. split.
  - apply (Permutation_in _ (Permutation_sym Hp)). left. reflexivity.
  - intros b Hb. apply (Permutation_in _ Hp) in Hb.
    inversion Hs as [|? ? _ Hall]; subst.
    destruct Hb as [<-|Hb]; [lra|].
    rewrite Forall_forall in Hall. specialize (Hall b Hb).
    unfold descending in Hall. lra.
Qed.

Lemma findBestCover_unavailable (cs : t) (enemy : AICharacter.t)
    (threat : Vector3) (st : option CoverState) :
  getAvailableCovers cs enemy = [] -> findBestCover cs enemy threat st = None.
Proof. intros H. unfold findBestCover. rewrite H. reflexivity. Qed.

(** X17.  [findBestCover] answers [null] exactly when no registered cover
    is available to the agent (within 30 units and, if it has health, with
    health above 0).  Otherwise its answer is a registered, available cover
    whose score no other available cover exceeds, the same whatever cover the
    agent occupies. *)
Theorem findBestCover_best_available (cs : t) (enemy : AICharacter.t)
    (threat : Vector3) (st : option CoverState) :
  (findBestCover cs enemy threat st = None
   <-> getAvailableCovers cs enemy = [])
  /\ (forall best,
        findBestCover cs enemy threat st = Some best ->
        In best (getAllCovers cs)
        /\ coverAvailable enemy best
        /\ forall c,
             In c (getAllCovers cs) -> coverAvailable enemy c ->
             scoreCover c enemy threat <= scoreCover best enemy threat).
Proof.
  rewrite findBestCover_ignores_current. unfold findBestCover.
  destruct (getAvailableCovers cs enemy) as [|c0 l0] eqn:Hav.
  { split; [split; reflexivity|]. intros best H. discriminate H. }
  set (scored := map (fun cover => (cover, scoreCover cover enemy threat))
                   (c0 :: l0)).
  destruct (hd_error (sort_desc snd scored)) as [[b s]|] eqn:Hh.
  - simpl. split; [split; discriminate|].
    intros best Hb. inversion Hb; subst best.
    destruct (sort_desc_head snd scored (b, s) Hh) as [Hin Hmax].
    unfold scored in Hin. apply in_map_iff in Hin.
    destruct Hin as (c & Hc & Hcin). inversion Hc; subst c s. clear Hc.
    rewrite <- Hav in Hcin. apply getAvailableCovers_In in Hcin.
    destruct Hcin as [Hreg Havail].
    split; [exact Hreg|]. split; [exact Havail|].
    intros c Hc Hca.
    apply (Hmax (c, scoreCover c enemy threat)).
    unfold scored.
    apply (in_map (fun cover => (cover, scoreCover cover enemy threat))).
    rewrite <- Hav. apply getAvailableCovers_In. split; assumption.
  - exfalso.
    pose proof (sort_desc_length (@snd CoverSpot.t R) scored) as Hl.
    destruct (sort_desc snd scored); [|discriminate].
    unfold scored in Hl. simpl in Hl. discriminate.
Qed.

Lemma leaveCover_consistent (a : AICharacter.t) :
  coverConsistent (AICharacter.leaveCover a).
Proof. split; simpl; discriminate. Qed.

Lemma setTargetCover_consistent (c : CoverSpot.t) (a : AICharacter.t) :
  coverConsistent (AICharacter.setTargetCover c a).
Proof. split; simpl; discriminate. Qed.

Lemma moveToward_cover (target : Vector3) (dt : R) (speed : option R)
    (a : AICharacter.t) :
  AICharacter.coverState (AICharacter.moveToward target dt speed a)
  = AICharacter.coverState a
  /\ AICharacter.isInCover (AICharacter.moveToward target dt speed a)
     = AICharacter.isInCover a.
Proof. unfold AICharacter.moveToward. destruct (JS.ltb _ 0.5); split; reflexivity. Qed.

Lemma moveToCover_consistent (a : AICharacter.t) :
  coverConsistent a -> coverConsistent (moveToCover a).
Proof.
  intros Ha. unfold moveToCover.
  destruct (targetCover (AICharacter.coverState a)) as [target|] eqn:Ht;
    [|exact Ha].
  destruct (JS.ltb _ 1).
  - split; simpl; discriminate.
  - destruct (moveToward_cover (CoverSpot.position target) 0.016 None a)
      as [Hc Hi].
    unfold coverConsistent in *. rewrite Hc, Hi. exact Ha.
Qed.

Lemma checkCoverStatus_consistent (cs : t) (a : AICharacter.t) (threat : Vector3) :
  coverConsistent a -> coverConsistent (checkCoverStatus cs a threat).
Proof.
  intros Ha. unfold checkCoverStatus.
  destruct (currentCover (AICharacter.coverState a)) as [cover|]; [|exact Ha].
  match goal with
  | |- coverConsistent (if ?c then _ else ?e) =>
      assert (He : coverConsistent e); [|destruct c;
        [apply leaveCover_consistent|exact He]]
  end.
  destruct (JS.gtb _ (PI * 0.7)); [|exact Ha].
  destruct (findBestCover cs a threat _) as [newCover|];
    [|apply leaveCover_consistent].
  destruct (negb _);
    [apply setTargetCover_consistent|apply leaveCover_consistent].
Qed.

(** X18.  [CoverSystem.update] keeps the cover bookkeeping consistent: an
    agent flagged as in cover always has a current cover, and an agent
    flagged as moving to cover always has a target cover. *)
Theorem update_keeps_cover_consistent (cs : t) (enemy : AICharacter.t)
    (playerPosition : Vector3) (perception : PerceptionResult) :
  coverConsistent enemy ->
  coverConsistent (update cs enemy playerPosition perception).
Proof.
  intros Ha. unfold update.
  apply checkCoverStatus_consistent.
  match goal with
  | |- coverConsistent (if isMovingToCover (AICharacter.coverState ?e)
                        then _ else _) =>
      assert (He : coverConsistent e);
        [|destruct (isMovingToCover (AICharacter.coverState e));
          [apply moveToCover_consistent|]; exact He]
  end.
  destruct (_ && _); [|exact Ha].
  destruct (findBestCover cs enemy playerPosition _);
    [apply setTargetCover_consistent|exact Ha].
Qed.

Lemma update_keeps_cover_consistent_witness :
  coverConsistent
    (update Scenario.covers Scenario.occupant Scenario.threat Scenario.sighting).
Proof.
  apply update_keeps_cover_consistent. split; simpl; discriminate.
Defined.

(** X19.  A destroyed destructible cover is always given up:
    [checkCoverStatus] on an agent whose current cover is dynamic with health
    at most 0 clears current cover, target cover and both flags, whatever
    the angle test decided before. *)
Theorem destroyed_cover_is_left (cs : t) (enemy : AICharacter.t)
    (threat : Vector3) (cover : CoverSpot.t) (h : R) :
  currentCover (AICharacter.coverState enemy) = Some cover ->
  CoverSpot.isDynamic cover = true ->
  CoverSpot.health cover = Some h -> h <= 0 ->
  let enemy' := checkCoverStatus cs enemy threat in
  currentCover (AICharacter.coverState enemy') = None
  /\ targetCover (AICharacter.coverState enemy') = None
  /\ isMovingToCover (AICharacter.coverState enemy') = false
  /\ AICharacter.isInCover enemy' = false
  /\ ~ In cover (getAvailableCovers cs enemy).
Proof.
  intros Hc Hdyn Hh Hle enemy'. subst enemy'. unfold checkCoverStatus.
  rewrite Hc, Hdyn, Hh. apply leb_true in Hle. rewrite Hle. simpl.
  repeat (split; [reflexivity|]).
  intros Hin. apply getAvailableCovers_In in Hin.
  destruct Hin as [_ [_ Hpos]]. rewrite Hh in Hpos. apply leb_true in Hle. lra.
Qed.

End CoverFacts.

Section CoverEdge.
Import CoverSystem.

Lemma destroyed_cover_is_left_witness :
  currentCover
    (AICharacter.coverState
       (checkCoverStatus Scenario.covers rubbleOccupant Scenario.threat)) = None.
Proof.
  assert (H0 : 0 <= 0) by lra.
  destruct (destroyed_cover_is_left Scenario.covers rubbleOccupant Scenario.threat
              rubble 0 eq_refl eq_refl eq_refl H0) as (H & _).
  exact H.
Defined.

Lemma findBestCover_best_available_witness :
  exists best,
    findBestCover Scenario.covers Scenario.occupant Scenario.threat None
    = Some best
    /\ coverAvailable Scenario.occupant best.
Proof.
  destruct (findBestCover_best_available Scenario.covers Scenario.occupant
              Scenario.threat None) as [H1 H2].
  destruct (findBestCover Scenario.covers Scenario.occupant Scenario.threat None)
    as [best|] eqn:E.
  - exists best. split; [reflexivity|]. apply (H2 best eq_refl).
  - exfalso.
    assert (Hin : In Scenario.coverA
                    (getAvailableCovers Scenario.covers Scenario.occupant)).
    { apply getAvailableCovers_In. split; [left; reflexivity|].
      split; [|exact I].
      replace (distanceTo _ _) with 3; [lra|].
      symmetry. apply distanceTo_by_square; simpl; lra. }
    rewrite (proj1 H1 eq_refl) in Hin. exact Hin.
Defined.

(** X20.  [CoverSystem.update] leaves an agent alone that has no cover
    business: no current cover, not moving to one, and either no need for
    cover or no cover available to it (for instance an empty registry). *)
Theorem update_without_cover_business (cs : t) (enemy : AICharacter.t)
    (playerPosition : Vector3) (perception : PerceptionResult) :
  currentCover (AICharacter.coverState enemy) = None ->
  isMovingToCover (AICharacter.coverState enemy) = false ->
  needsCover enemy perception = false \/ getAvailableCovers cs enemy = [] ->
  update cs enemy playerPosition perception = enemy.
Proof.
  intros Hc Hm Hno. unfold update.
  change (isTakingDamage perception
          || JS.ltb (distanceToTarget perception) 15
          || JS.ltb (AICharacter.health enemy) (AICharacter.maxHealth enemy * 0.5)
             && hasLineOfSight perception)
    with (needsCover enemy perception).
  assert (Hstep : (if needsCover enemy perception
                      && match currentCover (AICharacter.coverState enemy) with
                         | Some _ => false
                         | None => true
                         end
                   then match findBestCover cs enemy playerPosition
                                (Some (AICharacter.coverState enemy)) with
                        | Some bestCover =>
                            AICharacter.setTargetCover bestCover enemy
                        | None => enemy
                        end
                   else enemy) = enemy).
  { destruct Hno as [Hn|He].
    - rewrite Hn. reflexivity.
    - rewrite (findBestCover_unavailable cs enemy playerPosition _ He).
      destruct (_ && _); reflexivity. }
  rewrite Hstep, Hm. unfold checkCoverStatus. rewrite Hc. reflexivity.
Qed.

Lemma update_without_cover_business_witness :
  update CoverSystem.new Scenario.sentry Scenario.threat Scenario.sighting
  = Scenario.sentry.
Proof.
  apply update_without_cover_business; [reflexivity|reflexivity|].
  right. reflexivity.
Defined.

End CoverEdge.

(** * Further properties of the registry and the scheduler *)

Section RegistryFacts.
Context {V : Type}.

Lemma JSMap_get_set_same (k : string) (v : V) (m : JSMap.t V) :
  JSMap.get k (JSMap.set k v m) = Some v.
Proof.
  induction m as [|[k' v'] m IH]; simpl.
  - rewrite String.eqb_refl. reflexivity.
  - destruct (String.eqb k k') eqn:E; simpl; rewrite E; [reflexivity|exact IH].
Qed.

Lemma JSMap_get_set_other (k k0 : string) (v : V) (m : JSMap.t V) :
  k0 <> k -> JSMap.get k0 (JSMap.set k v m) = JSMap.get k0 m.
Proof.
  intros Hne. induction m as [|[k' v'] m IH]; simpl.
  - destruct (String.eqb_spec k0 k); [contradiction|reflexivity].
  - destruct (String.eqb_spec k k'); simpl.
    + subst k'. destruct (String.eqb_spec k0 k); [contradiction|reflexivity].
    + destruct (String.eqb k0 k'); [reflexivity|exact IH].
Qed.

Lemma JSMap_get_In (k : string) (v : V) (m : JSMap.t V) :
  JSMap.get k m = Some v -> In (k, v) m.
Proof.
  induction m as [|[k' v'] m IH]; simpl; [discriminate|].
  destruct (String.eqb_spec k k').
  - intros H. inversion H; subst. left. reflexivity.
  - intros H. right. apply IH, H.
Qed.

Lemma JSMap_get_None (k : string) (m : JSMap.t V) :
  JSMap.get k m = None <-> ~ In k (map fst m).
Proof.
  induction m as [|[k' v'] m IH]; simpl; [tauto|].
  destruct (String.eqb_spec k k').
  - subst. split; [discriminate|]. intros H. exfalso. apply H. left. reflexivity.
  - rewrite IH. split; [intros H [E|E]; [congruence|contradiction]|tauto].
Qed.

Lemma JSMap_set_absent (k : string) (v : V) (m : JSMap.t V) :
  JSMap.get k m = None -> JSMap.set k v m = m ++ [(k, v)].
Proof.
  induction m as [|[k' v'] m IH]; simpl; [reflexivity|].
  destruct (String.eqb k k'); [discriminate|].
  intros H. rewrite (IH H). reflexivity.
Qed.

Lemma JSMap_delete_absent (k : string) (m : JSMap.t V) :
  JSMap.get k m = None -> JSMap.delete k m = m.
Proof.
  induction m as [|[k' v'] m IH]; simpl; [reflexivity|].
  destruct (String.eqb k k'); [discriminate|].
  intros H. rewrite (IH H). reflexivity.
Qed.

Lemma JSMap_delete_keys (k : string) (m : JSMap.t V) :
  forall k0, In k0 (map fst (JSMap.delete k m)) -> In k0 (map fst m).
Proof.
  induction m as [|[k' v'] m IH]; simpl; [tauto|].
  destruct (String.eqb k k'); simpl; intros k0 H; [right; exact H|].
  destruct H as [H|H]; [left; exact H|right; apply IH, H].
Qed.

Lemma JSMap_delete_NoDup (k : string) (m : JSMap.t V) :
  NoDup (map fst m) -> NoDup (map fst (JSMap.delete k m)).
Proof.
  induction m as [|[k' v'] m IH]; simpl; [auto|].
  intros Hnd. inversion Hnd as [|? ? Hnin Hnd']; subst.
  destruct (String.eqb k k'); simpl; [exact Hnd'|].
  constructor; [|apply IH, Hnd'].
  intros Hin. apply Hnin. apply (JSMap_delete_keys k m), Hin.
Qed.

Lemma JSMap_get_delete_same (k : string) (m : JSMap.t V) :
  NoDup (map fst m) -> JSMap.get k (JSMap.delete k m) = None.
Proof.
  induction m as [|[k' v'] m IH]; simpl; [reflexivity|].
  intros Hnd. inversion Hnd as [|? ? Hnin Hnd']; subst.
  destruct (String.eqb_spec k k').
  - subst. apply JSMap_get_None. exact Hnin.
  - simpl. destruct (String.eqb_spec k k'); [contradiction|]. apply IH, Hnd'.
Qed.

Lemma JSMap_get_delete_other (k k0 : string) (m : JSMap.t V) :
  k0 <> k -> JSMap.get k0 (JSMap.delete k m) = JSMap.get k0 m.
Proof.
  intros Hne. induction m as [|[k' v'] m IH]; simpl; [reflexivity|].
  destruct (String.eqb_spec k k'); simpl.
  - subst k'. destruct (String.eqb_spec k0 k); [contradiction|reflexivity].
  - destruct (String.eqb k0 k'); [reflexivity|exact IH].
Qed.

Lemma JSMap_set_NoDup (k : string) (v : V) (m : JSMap.t V) :
  NoDup (map fst m) -> NoDup (map fst (JSMap.set k v m)).
Proof.
  intros Hnd. destruct (JSMap.get k m) as [v0|] eqn:E.
  - rewrite (JSMap_set_keys k v v0 m E). exact Hnd.
  - rewrite (JSMap_set_absent k v m E), map_app. simpl.
    apply Permutation_NoDup with (l := k :: map fst m).
    + apply Permutation_cons_append.
    + constructor; [apply JSMap_get_None, E|exact Hnd].
Qed.

End RegistryFacts.

Section Registry.
Import AIManager.

(** X21.  [registerEnemy] files an agent under its id: a lookup of that id
    then finds this agent, every other id is found as before, and the keys
    stay distinct.  An id that was absent goes to the end of the iteration
    order; registering under a present id replaces the agent in place,
    without a second entry. *)
Theorem registerEnemy_lookup (enemy : AICharacter.t) (m : t) :
  let m' := registerEnemy enemy m in
  JSMap.get (AICharacter.id enemy) (enemies m') = Some enemy
  /\ (forall k, k <> AICharacter.id enemy ->
                JSMap.get k (enemies m') = JSMap.get k (enemies m))
  /\ (JSMap.get (AICharacter.id enemy) (enemies m) = None ->
      enemies m' = enemies m ++ [(AICharacter.id enemy, enemy)])
  /\ (JSMap.get (AICharacter.id enemy) (enemies m) <> None ->
      map fst (enemies m') = map fst (enemies m)
      /\ JSMap.size (enemies m') = JSMap.size (enemies m))
  /\ (NoDup (map fst (enemies m)) -> NoDup (map fst (enemies m')))
  /\ currentBatchIndex m' = currentBatchIndex m.
Proof.
  cbv zeta. unfold registerEnemy. simpl.
  split; [apply JSMap_get_set_same|].
  split; [intros k Hk; apply JSMap_get_set_other, Hk|].
  split; [apply JSMap_set_absent|].
  split; [|split; [apply JSMap_set_NoDup|reflexivity]].
  intros Hne. destruct (JSMap.get (AICharacter.id enemy) (enemies m)) as [v0|] eqn:E;
    [|contradiction].
  pose proof (JSMap_set_keys (AICharacter.id enemy) enemy v0 (enemies m) E) as Hk.
  split; [exact Hk|]. apply JSMap_size_keys, Hk.
Qed.

Lemma registerEnemy_lookup_witness :
  JSMap.size (enemies (registerEnemy Scenario.fighter Scenario.squad))
  = JSMap.size (enemies Scenario.squad).
Proof.
  destruct (registerEnemy_lookup Scenario.fighter Scenario.squad)
    as (_ & _ & _ & H & _).
  apply H. discriminate.
Defined.

(** X22.  [removeEnemy] takes the agent of that id out of a registry with
    distinct keys and touches nothing else; for an id that is not registered
    it changes nothing.  The cursor is not adjusted. *)
Theorem removeEnemy_lookup (enemyId : string) (m : t) :
  let m' := removeEnemy enemyId m in
  (NoDup (map fst (enemies m)) ->
   JSMap.get enemyId (enemies m') = None /\ NoDup (map fst (enemies m')))
  /\ (forall k, k <> enemyId ->
                JSMap.get k (enemies m') = JSMap.get k (enemies m))
  /\ (JSMap.get enemyId (enemies m) = None -> m' = m)
  /\ currentBatchIndex m' = currentBatchIndex m.
Proof.
  cbv zeta. unfold removeEnemy. simpl.
  split; [intros Hnd; split;
          [apply JSMap_get_delete_same, Hnd|apply JSMap_delete_NoDup, Hnd]|].
  split; [intros k Hk; apply JSMap_get_delete_other, Hk|].
  split; [|reflexivity].
  intros Hn. rewrite (JSMap_delete_absent _ _ Hn). destruct m; reflexivity.
Qed.

Lemma removeEnemy_lookup_witness :
  JSMap.get "scout" (enemies (removeEnemy "scout" Scenario.squad)) = None
  /\ removeEnemy "nobody" Scenario.squad = Scenario.squad.
Proof.
  destruct (removeEnemy_lookup "scout" Scenario.squad) as (H1 & _).
  destruct (removeEnemy_lookup "nobody" Scenario.squad) as (_ & _ & H3 & _).
  split.
  - apply H1. simpl. repeat constructor; simpl; intuition discriminate.
  - apply H3. reflexivity.
Defined.

End Registry.

Section FrameFacts.
Import AIManager.

Variable performance_now : nat -> R.
Variable Math_random : nat -> R.
Variable behaviorTree_update :
  BehaviorContext -> R -> AICharacter.t -> AICharacter.t.


(** X24.  Beyond 50 units from the player an agent gets the basic update,
    which does nothing: the agent is returned as it was, so a distant agent
    with a velocity does not move, its perception is not refreshed and the
    clock is not read. *)
Theorem distant_agent_is_frozen (w : World) (m : t) (enemy : AICharacter.t)
    (dt : R) :
  50 <= distanceTo (AICharacter.position enemy) (playerPosition m) ->
  updateEnemy performance_now behaviorTree_update w m enemy dt = (w, m, enemy).
Proof.
  intros Hd. unfold updateEnemy, updateEnemyBasic.
  cmp_case (JS.ltb (distanceTo (AICharacter.position enemy) (playerPosition m)) 20);
    [lra|].
  cmp_case (JS.ltb (distanceTo (AICharacter.position enemy) (playerPosition m)) 50);
    [lra|].
  destruct (negb (AICharacter.isAlive enemy)); reflexivity.
Qed.





Lemma get_sees (k : string) (e : AICharacter.t) (l : JSMap.t AICharacter.t) :
  someoneSeesTarget l = false -> JSMap.get k l = Some e ->
  AICharacter.isAlive e
  && match AICharacter.perception e with
     | Some p => hasLineOfSight p
     | None => false
     end = false.
Proof.
  intros Hs Hg. apply JSMap_get_In in Hg.
  unfold someoneSeesTarget in Hs.
  destruct (AICharacter.isAlive e && _) eqn:E; [|reflexivity].
  assert (Ht : existsb
                 (fun e0 : string * AICharacter.t =>
                    AICharacter.isAlive (snd e0)
                    && match AICharacter.perception (snd e0) with
                       | Some p => hasLineOfSight p
                       | None => false
                       end) l = true).
  { apply existsb_exists. exists (k, e). split; [exact Hg|exact E]. }
  rewrite Ht in Hs. discriminate.
Qed.

(** X25.  When no live registered agent holds a perception result with line
    of sight, the group-alert pass changes nothing and draws no random
    number. *)
Theorem group_pass_without_sighting (w : World) (m : t) :
  someoneSeesTarget (enemies m) = false ->
  updateGroupAI Math_random w m = Normal (w, m).
Proof.
  intros Hs. unfold updateGroupAI.
  generalize (map fst (enemies m)) as keys.
  induction keys as [|k keys IH]; simpl; [reflexivity|].
  destruct (JSMap.get k (enemies m)) as [enemy|] eqn:Hg; [|exact IH].
  rewrite (get_sees k enemy (enemies m) Hs Hg). exact IH.
Qed.

End FrameFacts.

Section AlertFacts.
Import AIManager.

Variable performance_now : nat -> R.
Variable Math_random : nat -> R.
Variable behaviorTree_update :
  BehaviorContext -> R -> AICharacter.t -> AICharacter.t.

Lemma sameVitals_refl (e : AICharacter.t) : sameVitals e e.
Proof. repeat split. Qed.

Lemma Forall2_entryKept_refl (l : JSMap.t AICharacter.t) : Forall2 entryKept l l.
Proof.
  induction l as [|a l IH]; constructor; [|exact IH].
  split; [reflexivity|apply sameVitals_refl].
Qed.

Lemma Forall2_alertOutcome_refl (source : AICharacter.t)
    (l : JSMap.t AICharacter.t) :
  Forall2 (alertOutcome source) l l.
Proof.
  induction l as [|a l IH]; constructor; [|exact IH].
  split; [split; [reflexivity|apply sameVitals_refl]|reflexivity].
Qed.

(** X26.  An alert reaches neighbours only: [alertNearbyEnemies] keeps the
    registry order and leaves the source, every dead agent and every agent
    30 units or more from the source exactly as they were.  The whole
    group-alert pass never changes the id, type, position, health, armor,
    liveness or stored perception of any agent.  Both hold whether the call
    returns or raises. *)
Theorem alert_reaches_only_neighbours (w : World) (m : t)
    (source : AICharacter.t) :
  Forall2 (alertOutcome source) (enemies m)
    (enemies (snd (stateOf (alertNearbyEnemies Math_random w m source))))
  /\ Forall2 entryKept (enemies m)
       (enemies (snd (stateOf (updateGroupAI Math_random w m)))).
Proof.
  rewrite alertNearbyEnemies_state, updateGroupAI_state. simpl. split.
  - apply Forall2_alertOutcome_refl.
  - apply Forall2_entryKept_refl.
Qed.

End AlertFacts.

Section CursorFacts.
Import AIManager.

Variable performance_now : nat -> R.
Variable Math_random : nat -> R.
Variable behaviorTree_update :
  BehaviorContext -> R -> AICharacter.t -> AICharacter.t.

(** X29.  A frame returns exactly when the registry holds at most one
    agent.  When it returns, [getStats] reports the registry size both as
    the total and as the active count, dead agents included, and as update
    time the difference between the last and the first clock reading of the
    frame.  When it raises, the statistics are those of the frame before. *)
Theorem stats_after_frame (w : World) (m : t) (dt : R) :
  let r := update performance_now Math_random behaviorTree_update w m dt in
  returned r = (JSMap.size (enemies m) <=? 1)%nat
  /\ match r with
     | Normal (w', m') =>
         getStats m'
         = mkStats (JSMap.size (enemies m)) (JSMap.size (enemies m))
             (performance_now (Nat.pred (clockReads w'))
              - performance_now (clockReads w))
     | Throw (_, m') => getStats m' = getStats m
     end.
Proof.
  cbv zeta.
  destruct (Nat.leb_spec (JSMap.size (enemies m)) 1) as [Hs|Hs].
  - unfold update, readClock. cbv zeta beta iota.
    destruct (updateBatch_small performance_now behaviorTree_update
                (mkWorld (S (clockReads w)) (randomDraws w)) m dt
                (performance_now (clockReads w)) Hs)
      as (w1 & m1 & p1 & Eb & Hk).
    rewrite Eb.
    assert (Hsize : JSMap.size (enemies m1) = JSMap.size (enemies m)).
    { unfold JSMap.size.
      rewrite <- (length_map fst (enemies m1)), Hk. apply length_map. }
    rewrite (updateGroupAI_small Math_random w1 m1) by (rewrite Hsize; exact Hs).
    simpl. split; [reflexivity|]. unfold getStats. simpl.
    rewrite Hsize. reflexivity.
  - destruct (update_raises performance_now Math_random behaviorTree_update
                w m dt) as [Hu _]; [lia|].
    rewrite Hu. split; reflexivity.
Qed.

End CursorFacts.

Section FrameInstances.
Import AIManager.


Lemma distant_agent_is_frozen_witness :
  updateEnemy (fun _ => 0) (fun _ _ a => a) (mkWorld 0 0) Scenario.squad
    distantRunner 0.016
  = (mkWorld 0 0, Scenario.squad, distantRunner).
Proof.
  apply distant_agent_is_frozen.
  replace (distanceTo _ _) with 60; [lra|].
  symmetry. apply distanceTo_by_square; simpl; lra.
Defined.

Lemma group_pass_without_sighting_witness :
  updateGroupAI (fun _ => 0) (mkWorld 0 0) Scenario.outpost
  = Normal (mkWorld 0 0, Scenario.outpost).
Proof. apply group_pass_without_sighting. reflexivity. Defined.

End FrameInstances.
